(** * orix: unit conversion and scale bar of the crystal map plot

    A shallow embedding of [convert_unit], [add_scalebar] and parts of
    [plot_map], [add_overlay] and [_override_status_bar] from
    [orix/plot/crystal_map_plot.py], with the properties the specification
    states about them, and a model of [Orientation.set_symmetry], whose
    implementation is not part of the sources verified here.

    Numbers.  The functions are embedded twice.

    - On exact rationals ([Q]): a Python float is the rational it stands
      for, and an operation gives the exact result.  The doubles of the
      code follow this embedding up to rounding (a few units in the 16th
      digit).  Rounding can change what the code does only where a
      comparison is decided by the last digits: at the powers of 1000
      where [convert_unit] changes the prefix, at a pointer exactly
      between two pixels, and where a product leaves the range of the
      doubles.  The theorems whose conclusion depends on such a comparison
      keep the relative distance [tol] from those points and bound the
      magnitudes, and they state numeric results up to [tol].  The
      non-finite results numpy produces ([-inf] from [log10 0], [nan] from
      [log10] of a negative number) are kept as separate constructors,
      because the errors of [convert_unit] come from them.

    - On IEEE-754 binary64 values (module [F64]): [convert_unit] bit for
      bit, with products and quotients rounded to the nearest double and
      the logarithm rounded to the nearest double.  It is used on concrete
      inputs, to show what the code does where rounding decides. *)

From stdpp Require Import gmap strings.
From Stdlib Require Import SpecFloat ZArith QArith Qpower Qround Qabs Qfield String Ascii List Sorted Lia.
Import ListNotations.

Local Open Scope string_scope.
Local Open Scope Z_scope.

(** ** Python values and exceptions *)

Module Py.

(** The exceptions the embedded code can raise. *)
Inductive exn : Set :=
| TypeError      (* indexing a list with [None] *)
| IndexError     (* list index out of range *)
| KeyError       (* a dictionary without the key *)
| ValueError     (* [int(nan)] *)
| OverflowError. (* [int(inf)], [int(-inf)] *)

Inductive result (A : Type) : Type :=
| Ok (a : A)
| Raise (e : exn).
Arguments Ok {A} a.
Arguments Raise {A} e.

Definition bind {A B} (r : result A) (k : A -> result B) : result B :=
  match r with
  | Ok a => k a
  | Raise e => Raise e
  end.

Definition is_ok {A} (r : result A) : bool :=
  match r with Ok _ => true | Raise _ => false end.

(** [l[i]] for a Python [int] index: negative indices count from the end,
    anything outside [-len l .. len l - 1] raises [IndexError]. *)
Definition index {A} (l : list A) (i : Z) : result A :=
  let n := Z.of_nat (List.length l) in
  let j := if i <? 0 then i + n else i in
  if (j <? 0) || (n <=? j) then Raise IndexError
  else match nth_error l (Z.to_nat j) with
       | Some a => Ok a
       | None => Raise IndexError
       end.

(** [l[i]] where [i] may still be [None]. *)
Definition index_opt {A} (l : list A) (i : option Z) : result A :=
  match i with
  | None => Raise TypeError
  | Some i => index l i
  end.

(** [s.lstrip(" ")], [s.rstrip(" ")] and [s.strip(" ")]. *)
Fixpoint lstrip_space (s : string) : string :=
  match s with
  | String " " s' => lstrip_space s'
  | _ => s
  end.

Fixpoint rstrip_space (s : string) : string :=
  match s with
  | EmptyString => EmptyString
  | String c s' =>
      match rstrip_space s', c with
      | EmptyString, " "%char => EmptyString
      | r, _ => String c r
      end
  end.

Definition strip_space (s : string) : string := rstrip_space (lstrip_space s).

(** [enumerate(l)], counting from [i]. *)
Fixpoint enumerate_from {A} (i : Z) (l : list A) : list (Z * A) :=
  match l with
  | [] => []
  | a :: l' => (i, a) :: enumerate_from (i + 1) l'
  end.

Definition enumerate {A} (l : list A) : list (Z * A) := enumerate_from 0 l.

End Py.

Notation "'let*' x ':=' c1 'in' c2" := (Py.bind c1 (fun x => c2))
  (at level 10, x name, c1 at level 100, c2 at level 200).

(** ** numpy scalars that may be non-finite *)

Module Np.

(** The value of [np.floor (np.log10 x)] and of what is computed from it:
    an integer-valued float, [-inf] or [nan]. *)
Inductive ifloat : Set :=
| Fin (k : Z)
| NegInf
| NaN.

(** Search upwards from [k] for the last power of ten that is [<= q]. *)
Fixpoint search_up (fuel : nat) (k : Z) (q : Q) : Z :=
  match fuel with
  | O => k
  | S f => if Qle_bool (10 ^ (k + 1)) q then search_up f (k + 1) q else k
  end.

(** Search downwards from [k] for the first power of ten that is [<= q]. *)
Fixpoint search_down (fuel : nat) (k : Z) (q : Q) : Z :=
  match fuel with
  | O => k
  | S f => if Qle_bool (10 ^ k) q then k else search_down f (k - 1) q
  end.

(** The integer [k] with [10^k <= q < 10^(k+1)], for [0 < q]: the floor of
    the exact logarithm.  On doubles [np.log10] is rounded, and just below
    a power of ten it gives the next integer: see [F64.floor_log10]. *)
Definition ilog10 (q : Q) : Z :=
  if Qle_bool 1 q
  then search_up (Z.to_nat (Z.log2 (Qnum q) + 1)) 0 q
  else search_down (Z.to_nat (Z.log2 (Zpos (Qden q)) + 1)) (-1) q.

(** [np.floor (np.log10 x)]: numpy warns, and does not raise, on a
    non-positive argument; it returns [-inf] at zero and [nan] below.  A
    rational is finite; the infinite argument a product of doubles can give
    is a case of [F64.floor_log10]. *)
Definition floor_log10 (x : Q) : ifloat :=
  match Qcompare x 0 with
  | Gt => Fin (ilog10 x)
  | Eq => NegInf
  | Lt => NaN
  end.

(** [np.floor (p / d) + a] for a positive integer [d]. *)
Definition floor_div_add (p : ifloat) (d a : Z) : ifloat :=
  match p with
  | Fin k => Fin (k / d + a)
  | NegInf => NegInf
  | NaN => NaN
  end.

(** [int(x)] on such a float. *)
Definition to_int (x : ifloat) : Py.result Z :=
  match x with
  | Fin k => Py.Ok k
  | NegInf => Py.Raise Py.OverflowError
  | NaN => Py.Raise Py.ValueError
  end.

End Np.

(** ** [convert_unit] *)

Definition letters : string := "yzafpnum kMGTPEZY".

(** One pass of the loop body: the table grows by one entry, and the index
    is recorded when the entry's unit is the one asked for. *)
Definition lookup_step (unit : string) (acc : list (string * Q) * option Z)
    (il : Z * ascii) : list (string * Q) * option Z :=
  let '(lookup_table, new_unit_idx) := acc in
  let '(i, letter) := il in
  let current_unit := Py.strip_space (String letter "m") in
  let lookup_table := (lookup_table ++ [(current_unit, 10 ^ (3 * i - 24))%Q])%list in
  if String.eqb unit current_unit
  then (lookup_table, Some i)
  else (lookup_table, new_unit_idx).

(** The loop: the table of the 17 prefixes and the index of [unit] in it. *)
Definition build_lookup_table (unit : string) : list (string * Q) * option Z :=
  fold_left (lookup_step unit) (Py.enumerate (list_ascii_of_string letters))
            ([], None).

(** [int(np.floor(np.floor(np.log10(value_in_metres)) / 3) + 8)]. *)
Definition suitable_unit_idx (value_in_metres : Q) : Py.result Z :=
  let power_of_value := Np.floor_log10 value_in_metres in
  Np.to_int (Np.floor_div_add power_of_value 3 8).

(** The function itself.  [old] is [lookup_table[new_unit_idx]] and [new]
    is [lookup_table[suitable_unit_idx]]; the debug log is left out.  The
    product and the quotients are exact here; [F64.convert_unit] has them
    rounded. *)
Definition convert_unit (value : Q) (unit : string) : Py.result (Q * string * Q) :=
  let unit_is_px := String.eqb unit "px" in
  let unit := if unit_is_px then "um" else unit in
  let '(lookup_table, new_unit_idx) := build_lookup_table unit in
  let* old := Py.index_opt lookup_table new_unit_idx in
  let value_in_metres := (value * snd old)%Q in
  let* idx := suitable_unit_idx value_in_metres in
  let* new := Py.index lookup_table idx in
  let new_value := (value_in_metres / snd new)%Q in
  let new_unit := fst new in
  let factor := (snd new / snd old)%Q in
  let new_unit := if unit_is_px then "px" else new_unit in
  Py.Ok (new_value, new_unit, factor).

(** ** [add_scalebar] *)

Module Plot.

(** A Python number as [str] prints it: an [int] or a [float]. *)
Inductive number : Type :=
| PyInt (z : Z)
| PyFloat (q : Q).

(** [warnings.warn(f"Scalebar width {scalebar_width} is not an integer.")] *)
Inductive warning : Type :=
| ScalebarWidthNotInteger (scalebar_width : Q).

(** Values of the keyword arguments handed on to [AnchoredSizeBar]. *)
Inductive kwarg : Type :=
| KInt (z : Z)
| KFloat (q : Q)
| KBool (b : bool)
| KFontProperties (size : Z)
| KStr (s : string).

(** What the function reads of the crystal map. *)
Record crystal_map : Type := {
  shape : list Z;
  step_sizes : gmap string Q;
  scan_unit : string
}.

(** matplotlib's [AnchoredSizeBar], an external collaborator: the record of
    the arguments it is constructed with.  The label,
    [str(scalebar_width) + " " + scan_unit], is kept as the number and the
    unit it is printed from.  [alpha] is what [bar.patch.set_alpha] sets. *)
Record size_bar : Type := {
  size : Q;
  label : number * string;
  bar_kwargs : gmap string kwarg;
  alpha : option Q
}.

(** The state the method acts on: the warnings issued so far and the
    artists of [self.axes]. *)
Record world : Type := {
  warnings_log : list warning;
  artists : list size_bar
}.

(** Computations that may raise and act on the world. *)
Definition M (A : Type) : Type := world -> Py.result A * world.

Definition ret {A} (a : A) : M A := fun w => (Py.Ok a, w).

Definition bind {A B} (m : M A) (k : A -> M B) : M B :=
  fun w => match m w with
           | (Py.Ok a, w') => k a w'
           | (Py.Raise e, w') => (Py.Raise e, w')
           end.

Definition lift {A} (r : Py.result A) : M A := fun w => (r, w).

Definition warn (x : warning) : M unit :=
  fun w => (Py.Ok tt, {| warnings_log := (warnings_log w ++ [x])%list;
                         artists := artists w |}).

Definition add_artist (b : size_bar) : M unit :=
  fun w => (Py.Ok tt, {| warnings_log := warnings_log w;
                         artists := (artists w ++ [b])%list |}).

(** [d[key]] on a dictionary. *)
Definition getitem {A} (d : gmap string A) (key : string) : Py.result A :=
  match d !! key with
  | Some a => Py.Ok a
  | None => Py.Raise Py.KeyError
  end.

(** [kwargs.setdefault(k, v)], for the dictionary it leaves. *)
Definition setdefault (kwargs : gmap string kwarg) (kv : string * kwarg)
    : gmap string kwarg :=
  match kwargs !! fst kv with
  | Some _ => kwargs
  | None => <[fst kv := snd kv]> kwargs
  end.

(** [x.is_integer()] and [int(x)] on a float. *)
Definition is_integer (x : Q) : bool := Qeq_bool x (inject_Z (Qfloor x)).

Definition to_int (x : Q) : Z :=
  if Qle_bool 0 x then Qfloor x else Qceiling x.

Definition good_values : list Z :=
  [1; 2; 5; 10; 15; 20; 25; 50; 75; 100; 125; 150; 200; 500; 750].

Definition qmin (a b : Q) : Q := if Qle_bool a b then a else b.

(** [a.min()] of a non-empty array. *)
Definition array_min (a : list Q) : Q :=
  match a with
  | [] => 0
  | x :: a' => fold_left qmin a' x
  end.

(** [np.where(mask)[0]]: the indices at which the mask holds. *)
Definition np_where (mask : list bool) : list Z :=
  map fst (filter (fun im : Z * bool => snd im) (Py.enumerate mask)).

(** The keywords the call of [AnchoredSizeBar] passes itself. *)
Definition passed_keywords : list string := ["transform"; "size"; "label"].

(** [AnchoredSizeBar(transform=..., size=size, label=label, **kwargs)].
    A key of [kwargs] that is one of the keywords passed in the call makes
    Python raise [TypeError] (multiple values for a keyword argument)
    before the constructor runs.  The constructor itself is matplotlib's:
    it is the record of its arguments, and what else it may reject among
    the values of [kwargs] is not part of these sources. *)
Definition AnchoredSizeBar (size : Q) (label : number * string)
    (kwargs : gmap string kwarg) : Py.result size_bar :=
  if existsb (fun k : string => bool_decide (is_Some (kwargs !! k))) passed_keywords
  then Py.Raise Py.TypeError
  else Py.Ok {| size := size; label := label; bar_kwargs := kwargs;
                alpha := None |}.

(** [bar.patch.set_alpha(a)] *)
Definition set_alpha (a : Q) (bar : size_bar) : size_bar :=
  {| size := size bar; label := label bar; bar_kwargs := bar_kwargs bar;
     alpha := Some a |}.

(** The good value closest to the initial width, the first one on a tie. *)
Definition closest_good_value (scalebar_width : Q) : Py.result Z :=
  let difference :=
    map (fun g : Z => Qabs (scalebar_width - inject_Z g)) good_values in
  let dmin := array_min difference in
  let* good_value_idx :=
    Py.index (np_where (map (fun d : Q => Qeq_bool d dmin) difference)) 0 in
  Py.index good_values good_value_idx.

End Plot.

Notation "'let!' x ':=' c1 'in' c2" := (Plot.bind c1 (fun x => c2))
  (at level 10, x name, c1 at level 100, c2 at level 200).

(** The method.  [kwargs] are the "keyword arguments passed to
    AnchoredSizeBar" next to [transform], [size] and [label], which the
    method passes itself.  The value of the transform and the debug log are
    left out. *)
Definition add_scalebar (crystal_map : Plot.crystal_map)
    (kwargs : gmap string Plot.kwarg) : Plot.M Plot.size_bar :=
  let! map_width := Plot.lift (Py.index (Plot.shape crystal_map) (-1)) in
  let! step_size := Plot.lift (Plot.getitem (Plot.step_sizes crystal_map) "x") in
  let scan_unit := Plot.scan_unit crystal_map in
  let scalebar_width := ((1 # 10) * inject_Z map_width * step_size)%Q in
  let! converted := Plot.lift (convert_unit scalebar_width scan_unit) in
  let '(scalebar_width, scan_unit, factor) := converted in
  let! good_value := Plot.lift (Plot.closest_good_value scalebar_width) in
  let scalebar_width := (inject_Z good_value * factor)%Q in
  let scalebar_width_px := (scalebar_width / step_size)%Q in
  let! scalebar_width :=
    (if Plot.is_integer scalebar_width
     then Plot.ret (Plot.PyInt (Plot.to_int scalebar_width))
     else let! _ := Plot.warn (Plot.ScalebarWidthNotInteger scalebar_width) in
          Plot.ret (Plot.PyFloat scalebar_width)) in
  let scan_unit := if String.eqb scan_unit "um" then "μm" else scan_unit in
  let d := [("loc", Plot.KInt 3); ("pad", Plot.KFloat (2 # 10));
            ("sep", Plot.KInt 3); ("frameon", Plot.KBool true);
            ("borderpad", Plot.KFloat (5 # 10));
            ("size_vertical", Plot.KFloat (scalebar_width_px / 12));
            ("fontproperties", Plot.KFontProperties 11)] in
  let kwargs := fold_left Plot.setdefault d kwargs in
  let! bar := Plot.lift (Plot.AnchoredSizeBar scalebar_width_px
                                               (scalebar_width, scan_unit) kwargs) in
  let bar := Plot.set_alpha (6 # 10) bar in
  let! _ := Plot.add_artist bar in
  Plot.ret bar.

(** ** Orientations and their reduction under a symmetry group

    The tests of [tests/test_orientation.py] call
    [Orientation.set_symmetry], whose module is not part of the sources
    verified here.  This model follows the specification, sections 3, 4.2
    and 4.3. *)

Module Orientation.

(** Modelled from the spec: the Rotation of the data model, "a unit
    quaternion (w, x, y, z)"; the class itself is missing from the
    sources.  Components are rationals, and nothing here needs the norm to
    be one. *)
Record quaternion : Type := { qw : Q; qx : Q; qy : Q; qz : Q }.

(** Modelled from the spec: composition of two rotations, the Hamilton
    product of their quaternions. *)
Definition compose (p q : quaternion) : quaternion :=
  {| qw := qw p * qw q - qx p * qx q - qy p * qy q - qz p * qz q;
     qx := qw p * qx q + qx p * qw q + qy p * qz q - qz p * qy q;
     qy := qw p * qy q - qx p * qz q + qy p * qw q + qz p * qx q;
     qz := qw p * qz q + qx p * qy q - qy p * qx q + qz p * qw q |}%Q.

(** Modelled from the spec: the orbit of 4.3, "all quaternions obtained by
    composing each symmetry-group element with the orientation", in the
    order of the group. *)
Definition orbit (group : list quaternion) (o : quaternion) : list quaternion :=
  map (fun g => compose g o) group.

(** Modelled from the spec: the selection rule of 4.3, the candidate
    "whose quaternion scalar (real) part has the largest magnitude", the
    one of lowest index on a tie. *)
Fixpoint closest_to_identity (best : quaternion) (candidates : list quaternion)
    : quaternion :=
  match candidates with
  | [] => best
  | q :: rest =>
      closest_to_identity
        (if Qle_bool (Qabs (qw q)) (Qabs (qw best)) then best else q) rest
  end.

(** Modelled from the spec: the reduction of one quaternion.  The spec
    asks for a "canonical sign convention" on the result and names none;
    it is the parameter [canon].  For a group without elements there is no
    candidate and the orientation is kept. *)
Definition reduce (canon : quaternion -> quaternion) (group : list quaternion)
    (o : quaternion) : quaternion :=
  match orbit group o with
  | [] => canon o
  | q :: rest => canon (closest_to_identity q rest)
  end.

(** Modelled from the spec: an Orientation object, a batch of quaternions
    "tagged with a reference crystallographic symmetry group". *)
Record orientation : Type := {
  data : list quaternion;
  symmetry : list quaternion
}.

(** Modelled from the spec: [o.set_symmetry(group)], which "produces a
    new Orientation whose underlying quaternion has been canonically
    reduced", one reduced quaternion per input quaternion, tagged with the
    group used.  The heap holds the objects alive, by reference; [None]
    stands for a dangling reference. *)
Definition set_symmetry (canon : quaternion -> quaternion) (group : list quaternion)
    (o : positive) (heap : gmap positive orientation)
    : option (positive * gmap positive orientation) :=
  match heap !! o with
  | None => None
  | Some obj =>
      let o' := fresh (dom heap) in
      Some (o', <[o' := {| data := map (reduce canon group) (data obj);
                           symmetry := group |}]> heap)
  end.

End Orientation.

(** *** Derived notions used to state the properties *)

(** The table does not depend on the unit asked for. *)
Definition prefix_table : list (string * Q) := fst (build_lookup_table "").

(** The enumerated prefixes with their unit names. *)
Definition unit_entries : list (Z * string) :=
  map (fun il : Z * ascii => (fst il, Py.strip_space (String (snd il) "m")))
      (Py.enumerate (list_ascii_of_string letters)).

(** The second component of the loop alone: the last index whose unit is
    [unit], or [found] if there is none. *)
Fixpoint find_unit (unit : string) (l : list (Z * string)) (found : option Z)
    : option Z :=
  match l with
  | [] => found
  | (i, name) :: l' =>
      find_unit unit l' (if String.eqb unit name then Some i else found)
  end.

(** The index of the input unit, after the ["px"] substitution. *)
Definition unit_index (unit : string) : option Z :=
  snd (build_lookup_table (if String.eqb unit "px" then "um" else unit)).

(** The unit is one of the 17 entries of the table. *)
Definition in_table (unit : string) : bool :=
  existsb (String.eqb unit) (map fst prefix_table).

(** The units the function accepts: the 17 table entries and ["px"]. *)
Definition recognized (unit : string) : bool :=
  String.eqb unit "px" || in_table unit.

(** The multiplier of table entry [i]. *)
Definition multiplier (i : Z) : Q := (10 ^ (3 * i - 24))%Q.

(** [value] in metres, for a recognized unit. *)
Definition in_metres (value : Q) (unit : string) : Q :=
  match unit_index unit with
  | Some i => (value * multiplier i)%Q
  | None => 0%Q
  end.

(** The relative distance kept from the points where rounding decides,
    and the tolerance of numeric results: 10^-9. *)
Definition tol : Q := 1 # 1000000000.

(** [a] equals [b] up to the relative tolerance. *)
Definition close (a b : Q) : Prop := (Qabs (a - b) <= tol * Qabs b)%Q.

(** [x] lies between the powers of ten [10^lo] and [10^hi], away from
    both. *)
Definition within (lo hi : Z) (x : Q) : Prop :=
  (10 ^ lo * (1 + tol) <= x /\ x <= 10 ^ hi * (1 - tol))%Q.

(** The keyword arguments of the caller leave alone the keywords that
    [add_scalebar] passes itself. *)
Definition free_of_passed_keywords (kwargs : gmap string Plot.kwarg) : Prop :=
  kwargs !! "transform" = None /\ kwargs !! "size" = None
  /\ kwargs !! "label" = None.

(** ** Further parts of [crystal_map_plot.py] *)

(** The dictionary [d] of [add_scalebar], by its items. *)
Definition scalebar_defaults (scalebar_width_px : Q) : list (string * Plot.kwarg) :=
  [("loc", Plot.KInt 3); ("pad", Plot.KFloat (2 # 10));
   ("sep", Plot.KInt 3); ("frameon", Plot.KBool true);
   ("borderpad", Plot.KFloat (5 # 10));
   ("size_vertical", Plot.KFloat (scalebar_width_px / 12));
   ("fontproperties", Plot.KFontProperties 11)].

(** *** [plot_map]: the colours of a phase map

    The array [phase_id] holds one phase id per pixel, or [nan] where the
    map is not indexed; the arrays are kept flat, one entry per pixel, all
    operations on them being pixel by pixel. *)

Module PhaseMap.

Definition rgb : Type := Q * Q * Q.

(** A pixel of [np.ones(phase_id.shape + (3,))]. *)
Definition white : rgb := (1, 1, 1)%Q.

(** [data[mask] * color] on one pixel. *)
Definition times (pixel color : rgb) : rgb :=
  let '(r, g, b) := pixel in
  let '(cr, cg, cb) := color in
  (r * cr, g * cg, b * cb)%Q.

(** [phase_id[~np.isnan(phase_id)]] *)
Definition not_nan (phase_id : list (option Z)) : list Z := omap id phase_id.

Fixpoint insert_unique (x : Z) (l : list Z) : list Z :=
  match l with
  | [] => [x]
  | y :: l' =>
      if x <? y then x :: y :: l'
      else if x =? y then y :: l'
      else y :: insert_unique x l'
  end.

(** [np.unique a]: the distinct values of [a] in ascending order. *)
Definition np_unique (a : list Z) : list Z := fold_right insert_unique [] a.

(** One pass of the loop: [mask = phase_id == int(i)] and
    [data[mask] = data[mask] * color]. *)
Definition paint (phase_id : list (option Z)) (data : list rgb) (ic : Z * rgb)
    : list rgb :=
  zip_with (fun (pid : option Z) (pixel : rgb) =>
              match pid with
              | Some p => if p =? fst ic then times pixel (snd ic) else pixel
              | None => pixel
              end)
           phase_id data.

(** The array [data] of a phase map: the loop over
    [zip(unique_phase_ids, colors_rgb)] from an array of ones. *)
Definition phase_map_data (phase_id : list (option Z)) (colors_rgb : list rgb)
    : list rgb :=
  fold_left (paint phase_id)
            (zip (np_unique (not_nan phase_id)) colors_rgb)
            (map (fun _ => white) phase_id).

End PhaseMap.

(** *** [add_overlay]: the rescaled overlay

    The overlay holds one measurement per pixel, or [nan] ([None]); what is
    computed from it may in principle also be infinite. *)

Module Overlay.

Inductive float : Type :=
| Fin (q : Q)
| Inf (positive : bool)
| NaN.

Definition qmax (a b : Q) : Q := if Qle_bool a b then b else a.

(** [np.nanmin a] and [np.nanmax a]: [ValueError] on an array without
    entries, [nan] (and a warning) on one with nothing but [nan]. *)
Definition nanmin (a : list (option Q)) : Py.result (option Q) :=
  match a with
  | [] => Py.Raise Py.ValueError
  | _ => match omap id a with
         | [] => Py.Ok None
         | x :: l => Py.Ok (Some (fold_left Plot.qmin l x))
         end
  end.

Definition nanmax (a : list (option Q)) : Py.result (option Q) :=
  match a with
  | [] => Py.Raise Py.ValueError
  | _ => match omap id a with
         | [] => Py.Ok None
         | x :: l => Py.Ok (Some (fold_left qmax l x))
         end
  end.

(** [x - y] on floats that are finite or [nan]. *)
Definition sub (x y : option Q) : option Q :=
  match x, y with
  | Some a, Some b => Some (a - b)%Q
  | _, _ => None
  end.

(** [x / y] on such floats: numpy warns on a division by zero and gives an
    infinity, or [nan] for [0 / 0]. *)
Definition div (x y : option Q) : float :=
  match x, y with
  | Some a, Some b =>
      if Qeq_bool b 0
      then match (a ?= 0)%Q with
           | Eq => NaN
           | Gt => Inf true
           | Lt => Inf false
           end
      else Fin (a / b)
  | _, _ => NaN
  end.

(** [(overlay - overlay_min) / (np.nanmax(overlay) - overlay_min)], for an
    overlay of finite values and [nan]s, the differences being exact. *)
Definition rescaled_overlay (overlay : list (option Q)) : Py.result (list float) :=
  let* overlay_min := nanmin overlay in
  let* overlay_max := nanmax overlay in
  Py.Ok (map (fun x => div (sub x overlay_min) (sub overlay_max overlay_min))
             overlay).

End Overlay.

(** *** [_override_status_bar]: the data under the pointer *)

Module StatusBar.

(** [int(event.xdata + 0.5)], the sum being exact. *)
Definition cursor_index (xdata : Q) : Z := Plot.to_int (xdata + (1 # 2)).

(** [a[row, col]] on an array given by its rows. *)
Definition index2 {A} (a : list (list A)) (row col : Z) : Py.result A :=
  let* line := Py.index a row in
  Py.index line col.

(** The closure [status_bar_data], with the pointer position of the
    event. *)
Definition status_bar_data {A B} (r : list (list A)) (image_data : list (list B))
    (xdata ydata : Q) : Py.result (Z * Z * A * B) :=
  let col := cursor_index xdata in
  let row := cursor_index ydata in
  let* rotation := index2 r row col in
  let* value := index2 image_data row col in
  Py.Ok (row, col, rotation, value).

End StatusBar.

(** ** [convert_unit] on doubles

    The same function on IEEE-754 binary64 values, as Python and numpy
    compute it: every product and quotient is rounded to the nearest
    double ([SFmul], [SFdiv]), the integers of the table are converted
    when they meet a float, and a product that leaves the range of the
    doubles becomes an infinity or a zero. *)

Module F64.

Definition float : Type := spec_float.

Definition mul : float -> float -> float := SFmul 53 1024.
Definition div : float -> float -> float := SFdiv 53 1024.

(** [float(z)] for a Python [int]. *)
Definition of_int (z : Z) : float := binary_normalize 53 1024 z 0 false.

(** The second component of a table entry: [10 ** k] is an [int] for
    [0 <= k] and a [float] below. *)
Inductive number : Type :=
| Int (z : Z)
| Float (f : float).

Definition to_float (n : number) : float :=
  match n with
  | Int z => of_int z
  | Float f => f
  end.

(** [10 ** e] *)
Definition int_pow10 (e : Z) : number :=
  if (0 <=? e)%Z then Int (10 ^ e)
  else Float (div (of_int 1) (S754_finite false (Z.to_pos (10 ^ (- e))) 0)).

(** [a / b]: the quotient of two [int]s is the double nearest to the exact
    quotient; otherwise the [int] is converted first. *)
Definition ratio (a b : number) : float :=
  match a, b with
  | Int x, Int y =>
      match x, y with
      | Zpos p, Zpos q => div (S754_finite false p 0) (S754_finite false q 0)
      | _, _ => div (of_int x) (of_int y)
      end
  | _, _ => div (to_float a) (to_float b)
  end.

(** The rational a finite double stands for. *)
Definition to_Q (f : float) : Q :=
  match f with
  | S754_finite s m e => (inject_Z (if s then Zneg m else Zpos m) * 2 ^ e)%Q
  | _ => 0%Q
  end.

(** A lower bound of the natural logarithm of ten. *)
Definition ln10_lo : Q :=
  2302585092994045684017991454684 # 1000000000000000000000000000000.

(** The distance from the integer [j] to the double before it. *)
Definition gap_below (j : Z) : Q :=
  let a := Z.abs j in
  let b := Z.log2 a in
  if (0 <? j)%Z && (a =? 2 ^ b)%Z then (2 ^ (b - 53))%Q else (2 ^ (b - 52))%Q.

(** [np.log10 x] is the integer [j] although [x < 10^j]: the logarithm is
    closer to [j] than to the double before it as soon as
    [10^j * exp (- c) <= x], where [c] is half that distance times [ln 10];
    [exp (- c) <= 1 - c + c^2 / 2].  Next to zero the doubles are dense
    enough for the logarithm of every double below 1 to be negative. *)
Definition rounds_to (j : Z) (x : Q) : bool :=
  if (j =? 0)%Z then false
  else
    let c := (gap_below j / 2 * ln10_lo)%Q in
    Qle_bool (10 ^ j * (1 - c + c * c / 2))%Q x.

(** The value of [np.floor (np.log10 x)] and of what is computed from it. *)
Inductive ifloat : Type :=
| Fin (k : Z)
| PosInf
| NegInf
| NaN.

(** [np.floor (np.log10 x)], the logarithm rounded to the nearest double:
    [-inf] at both zeros, [nan] below zero, [inf] at [inf]. *)
Definition floor_log10 (x : float) : ifloat :=
  match x with
  | S754_zero _ => NegInf
  | S754_infinity false => PosInf
  | S754_infinity true => NaN
  | S754_nan => NaN
  | S754_finite true _ _ => NaN
  | S754_finite false _ _ =>
      let q := to_Q x in
      let k := Np.ilog10 q in
      Fin (if rounds_to (k + 1) q then k + 1 else k)
  end.

(** [np.floor (p / d) + a] for a positive integer [d]. *)
Definition floor_div_add (p : ifloat) (d a : Z) : ifloat :=
  match p with
  | Fin k => Fin (k / d + a)
  | other => other
  end.

(** [int(x)] *)
Definition to_int (x : ifloat) : Py.result Z :=
  match x with
  | Fin k => Py.Ok k
  | PosInf | NegInf => Py.Raise Py.OverflowError
  | NaN => Py.Raise Py.ValueError
  end.

Definition lookup_step (unit : string) (acc : list (string * number) * option Z)
    (il : Z * ascii) : list (string * number) * option Z :=
  let '(lookup_table, new_unit_idx) := acc in
  let '(i, letter) := il in
  let current_unit := Py.strip_space (String letter "m") in
  let lookup_table := (lookup_table ++ [(current_unit, int_pow10 (3 * i - 24))])%list in
  if String.eqb unit current_unit
  then (lookup_table, Some i)
  else (lookup_table, new_unit_idx).

Definition build_lookup_table (unit : string)
    : list (string * number) * option Z :=
  fold_left (lookup_step unit) (Py.enumerate (list_ascii_of_string letters))
            ([], None).

Definition suitable_unit_idx (value_in_metres : float) : Py.result Z :=
  let power_of_value := floor_log10 value_in_metres in
  to_int (floor_div_add power_of_value 3 8).

Definition convert_unit (value : float) (unit : string)
    : Py.result (float * string * float) :=
  let unit_is_px := String.eqb unit "px" in
  let unit := if unit_is_px then "um" else unit in
  let '(lookup_table, new_unit_idx) := build_lookup_table unit in
  let* old := Py.index_opt lookup_table new_unit_idx in
  let value_in_metres := mul value (to_float (snd old)) in
  let* idx := suitable_unit_idx value_in_metres in
  let* new := Py.index lookup_table idx in
  let new_value := div value_in_metres (to_float (snd new)) in
  let new_unit := fst new in
  let factor := ratio (snd new) (snd old) in
  let new_unit := if unit_is_px then "px" else new_unit in
  Py.Ok (new_value, new_unit, factor).

(** The positive double Python prints as [0x1.<frac>p<e>] with [float.hex],
    [frac] being the 13 hexadecimal digits of the fraction. *)
Definition hex (frac : Z) (e : Z) : float :=
  S754_finite false (Z.to_pos (2 ^ 52 + frac)) (e - 52).

End F64.

(** * Properties *)

(** ** Powers of ten and the integer logarithm *)

Section Log10.

Local Open Scope Q_scope.

Lemma ten_gt_1 : 1 < 10.
Proof. reflexivity. Qed.

Lemma ten_ge_1 : 1 <= 10.
Proof. discriminate. Qed.

Lemma ten_neq_0 : ~ 10 == 0.
Proof. discriminate. Qed.

Lemma pow10_pos (k : Z) : 0 < 10 ^ k.
Proof. apply Qpower_0_lt. reflexivity. Qed.

Lemma pow10_neq_0 (k : Z) : ~ 10 ^ k == 0.
Proof. intros H. pose proof (pow10_pos k) as P. rewrite H in P. discriminate P. Qed.

Lemma pow10_le (a b : Z) : (a <= b)%Z -> 10 ^ a <= 10 ^ b.
Proof. intros H. apply Qpower_le_compat_l; [exact H | exact ten_ge_1]. Qed.

Lemma pow10_lt (a b : Z) : (a < b)%Z -> 10 ^ a < 10 ^ b.
Proof. intros H. apply Qpower_lt_compat_l; [exact H | exact ten_gt_1]. Qed.

Lemma pow10_lt_inv (a b : Z) : 10 ^ a < 10 ^ b -> (a < b)%Z.
Proof. intros H. exact (Qpower_lt_compat_l_inv 10 a b H ten_gt_1). Qed.

Lemma pow10_plus (a b : Z) : 10 ^ (a + b) == 10 ^ a * 10 ^ b.
Proof. apply Qpower_plus. exact ten_neq_0. Qed.

Lemma pow10_minus (a b : Z) : 10 ^ a / 10 ^ b == 10 ^ (a - b).
Proof.
  unfold Z.sub. rewrite pow10_plus, Qpower_opp. reflexivity.
Qed.

(** Two consecutive powers of ten bracket at most one exponent. *)
Lemma pow10_bracket_unique (q : Q) (a b : Z) :
  10 ^ a <= q -> q < 10 ^ (a + 1) ->
  10 ^ b <= q -> q < 10 ^ (b + 1) -> a = b.
Proof.
  intros La Ua Lb Ub.
  assert (a < b + 1)%Z by (apply pow10_lt_inv; eapply Qle_lt_trans; eassumption).
  assert (b < a + 1)%Z by (apply pow10_lt_inv; eapply Qle_lt_trans; eassumption).
  lia.
Qed.

Lemma search_up_spec (fuel : nat) : forall (k : Z) (q : Q),
  10 ^ k <= q -> q < 10 ^ (k + Z.of_nat fuel) ->
  10 ^ Np.search_up fuel k q <= q /\ q < 10 ^ (Np.search_up fuel k q + 1).
Proof.
  induction fuel as [|f IH]; intros k q Hlo Hhi.
  - exfalso. rewrite Z.add_0_r in Hhi.
    exact (Qlt_irrefl _ (Qle_lt_trans _ _ _ Hlo Hhi)).
  - cbn [Np.search_up].
    destruct (Qle_bool (10 ^ (k + 1)) q) eqn:E.
    + apply IH.
      * apply Qle_bool_iff. exact E.
      * replace (k + 1 + Z.of_nat f)%Z with (k + Z.of_nat (S f))%Z by lia.
        exact Hhi.
    + split; [exact Hlo|].
      apply Qnot_le_lt. intros C. apply Qle_bool_iff in C. congruence.
Qed.

Lemma search_down_spec (fuel : nat) : forall (k : Z) (q : Q),
  q < 10 ^ (k + 1) -> 10 ^ (k - Z.of_nat fuel) <= q ->
  10 ^ Np.search_down fuel k q <= q /\ q < 10 ^ (Np.search_down fuel k q + 1).
Proof.
  induction fuel as [|f IH]; intros k q Hhi Hlo.
  - cbn [Np.search_down]. rewrite Z.sub_0_r in Hlo. split; assumption.
  - cbn [Np.search_down].
    destruct (Qle_bool (10 ^ k) q) eqn:E.
    + split; [apply Qle_bool_iff; exact E | exact Hhi].
    + apply IH.
      * replace (k - 1 + 1)%Z with k by lia.
        apply Qnot_le_lt. intros C. apply Qle_bool_iff in C. congruence.
      * replace (k - 1 - Z.of_nat f)%Z with (k - Z.of_nat (S f))%Z by lia.
        exact Hlo.
Qed.

Lemma inject_pow10 (m : Z) : (0 <= m)%Z -> inject_Z (10 ^ m) == 10 ^ m.
Proof. intros H. rewrite Zpower_Qpower by exact H. reflexivity. Qed.

(** A positive integer is below ten to the power of its bit length. *)
Lemma lt_pow10_log2 (n : Z) : (0 < n)%Z -> (n < 10 ^ (Z.log2 n + 1))%Z.
Proof.
  intros H.
  pose proof (Z.log2_nonneg n) as L.
  destruct (Z.log2_spec n H) as [_ U].
  apply Z.lt_le_trans with (2 ^ Z.succ (Z.log2 n))%Z; [exact U|].
  unfold Z.succ. apply Z.pow_le_mono_l. lia.
Qed.

Lemma fuel_up_enough (q : Q) :
  0 < q -> q < 10 ^ (0 + Z.of_nat (Z.to_nat (Z.log2 (Qnum q) + 1))).
Proof.
  intros Hq.
  assert (Hn : (0 < Qnum q)%Z).
  { destruct q as [n d]. unfold Qlt in Hq. simpl in *. lia. }
  pose proof (Z.log2_nonneg (Qnum q)) as L.
  rewrite Z.add_0_l, Z2Nat.id by lia.
  rewrite <- inject_pow10 by lia.
  pose proof (lt_pow10_log2 _ Hn) as B.
  destruct q as [n d]. unfold Qlt, inject_Z. simpl in *. nia.
Qed.

Lemma fuel_down_enough (q : Q) :
  0 < q -> 10 ^ (-1 - Z.of_nat (Z.to_nat (Z.log2 (Zpos (Qden q)) + 1))) <= q.
Proof.
  intros Hq.
  assert (Hn : (0 < Qnum q)%Z).
  { destruct q as [n d]. unfold Qlt in Hq. simpl in *. lia. }
  pose proof (Z.log2_nonneg (Zpos (Qden q))) as L.
  rewrite Z2Nat.id by lia.
  set (m := (Z.log2 (Zpos (Qden q)) + 1)%Z) in *.
  assert (B : (Zpos (Qden q) < 10 ^ m)%Z) by (apply lt_pow10_log2; lia).
  assert (H1 : 1 <= q * 10 ^ m).
  { rewrite <- inject_pow10 by lia.
    destruct q as [n d]. unfold Qle, Qmult, inject_Z. simpl in *. nia. }
  apply Qle_trans with (10 ^ (- m)); [apply pow10_le; lia|].
  apply Qle_trans with (10 ^ (- m) * (q * 10 ^ m)).
  - rewrite <- (Qmult_1_r (10 ^ (- m))) at 1.
    apply Qmult_le_l; [apply pow10_pos | exact H1].
  - rewrite Qpower_opp. apply Qle_lteq. right.
    field. apply pow10_neq_0.
Qed.

(** [ilog10] is the floor of the decimal logarithm. *)
Lemma ilog10_spec (q : Q) :
  0 < q -> 10 ^ Np.ilog10 q <= q /\ q < 10 ^ (Np.ilog10 q + 1).
Proof.
  intros Hq. unfold Np.ilog10.
  destruct (Qle_bool 1 q) eqn:E.
  - apply search_up_spec.
    + apply Qle_bool_iff in E. exact E.
    + apply fuel_up_enough. exact Hq.
  - apply search_down_spec.
    + change (q < 1).
      apply Qnot_le_lt. intros C. apply Qle_bool_iff in C. congruence.
    + apply fuel_down_enough. exact Hq.
Qed.

Lemma ilog10_unique (q : Q) (k : Z) :
  10 ^ k <= q -> q < 10 ^ (k + 1) -> Np.ilog10 q = k.
Proof.
  intros Hlo Hhi.
  assert (Hq : 0 < q) by (eapply Qlt_le_trans; [apply pow10_pos | exact Hlo]).
  destruct (ilog10_spec q Hq) as [L U].
  eapply pow10_bracket_unique; eassumption.
Qed.

End Log10.

(** ** The lookup table *)

Section LookupTable.

Local Open Scope Q_scope.

Lemma lookup_step_eq (unit : string) (t : list (string * Q)) (o : option Z)
    (i : Z) (c : ascii) :
  lookup_step unit (t, o) (i, c) =
  ((t ++ [(Py.strip_space (String c "m"), multiplier i)])%list,
   if String.eqb unit (Py.strip_space (String c "m")) then Some i else o).
Proof.
  unfold lookup_step, multiplier.
  destruct (String.eqb unit (Py.strip_space (String c "m"))); reflexivity.
Qed.

Lemma fold_lookup_step (unit : string) (l : list (Z * ascii)) :
  forall (t : list (string * Q)) (o : option Z),
    fold_left (lookup_step unit) l (t, o) =
    ((t ++ map (fun il : Z * ascii =>
                  (Py.strip_space (String (snd il) "m"), multiplier (fst il))) l)%list,
     find_unit unit
       (map (fun il : Z * ascii =>
               (fst il, Py.strip_space (String (snd il) "m"))) l) o).
Proof.
  induction l as [|[i c] l IH]; intros t o.
  - cbn. rewrite app_nil_r. reflexivity.
  - cbn [fold_left]. rewrite lookup_step_eq, IH.
    cbn [map fst snd find_unit]. rewrite <- app_assoc. reflexivity.
Qed.

Lemma build_lookup_table_eq (unit : string) :
  build_lookup_table unit = (prefix_table, find_unit unit unit_entries None).
Proof.
  unfold prefix_table, build_lookup_table, unit_entries.
  rewrite !fold_lookup_step. reflexivity.
Qed.

Lemma unit_entries_eq :
  unit_entries =
  [(0, "ym"); (1, "zm"); (2, "am"); (3, "fm"); (4, "pm"); (5, "nm");
   (6, "um"); (7, "mm"); (8, "m"); (9, "km"); (10, "Mm"); (11, "Gm");
   (12, "Tm"); (13, "Pm"); (14, "Em"); (15, "Zm"); (16, "Ym")]%Z.
Proof. reflexivity. Qed.

Lemma prefix_table_eq :
  prefix_table = map (fun e : Z * string => (snd e, multiplier (fst e))) unit_entries.
Proof. reflexivity. Qed.

Lemma prefix_table_length : List.length prefix_table = 17%nat.
Proof. reflexivity. Qed.

Lemma table_names_eq :
  map fst prefix_table =
  ["ym"; "zm"; "am"; "fm"; "pm"; "nm"; "um"; "mm"; "m"; "km"; "Mm"; "Gm";
   "Tm"; "Pm"; "Em"; "Zm"; "Ym"].
Proof. reflexivity. Qed.

(** Every index from 0 to 16 holds the entry with its own multiplier. *)
Lemma index_prefix_table (j : Z) :
  (0 <= j < 17)%Z ->
  exists name, Py.index prefix_table j = Py.Ok (name, multiplier j).
Proof.
  intros H.
  assert (C : (j = 0 \/ j = 1 \/ j = 2 \/ j = 3 \/ j = 4 \/ j = 5 \/ j = 6 \/ j = 7
              \/ j = 8 \/ j = 9 \/ j = 10 \/ j = 11 \/ j = 12 \/ j = 13 \/ j = 14
              \/ j = 15 \/ j = 16)%Z) by lia.
  repeat (destruct C as [-> | C]); try subst j; eexists; reflexivity.
Qed.

(** A negative index in range reads the table from its end. *)
Lemma index_negative {A} (l : list A) (j : Z) :
  (j < 0)%Z -> Py.index l j = Py.index l (j + Z.of_nat (List.length l))
               \/ (j + Z.of_nat (List.length l) < 0)%Z.
Proof.
  intros H. destruct (Z.ltb_spec (j + Z.of_nat (List.length l)) 0) as [L|L].
  - right. exact L.
  - left. unfold Py.index. cbv zeta.
    rewrite (proj2 (Z.ltb_lt j 0) H). cbv iota.
    rewrite (proj2 (Z.ltb_ge (j + Z.of_nat (List.length l)) 0) L). cbv iota.
    rewrite (proj2 (Z.ltb_ge (j + Z.of_nat (List.length l)) 0) L).
    reflexivity.
Qed.

Lemma index_prefix_table_neg (j : Z) :
  (-17 <= j < 0)%Z -> Py.index prefix_table j = Py.index prefix_table (j + 17).
Proof.
  intros H. destruct (index_negative prefix_table j ltac:(lia)) as [E|E].
  - rewrite E, prefix_table_length. reflexivity.
  - rewrite prefix_table_length in E. lia.
Qed.

Lemma index_out_of_range {A} (l : list A) (j : Z) :
  (j < - Z.of_nat (List.length l) \/ Z.of_nat (List.length l) <= j)%Z ->
  Py.index l j = Py.Raise Py.IndexError.
Proof.
  intros H. unfold Py.index. cbv zeta.
  destruct (Z.ltb_spec j 0) as [N|N].
  - cbv iota.
    rewrite (proj2 (Z.ltb_lt (j + Z.of_nat (List.length l)) 0)) by lia.
    reflexivity.
  - cbv iota. rewrite (proj2 (Z.ltb_ge j 0) N).
    rewrite (proj2 (Z.leb_le (Z.of_nat (List.length l)) j)) by lia.
    reflexivity.
Qed.

Lemma index_prefix_table_out (j : Z) :
  (j < -17 \/ 17 <= j)%Z -> Py.index prefix_table j = Py.Raise Py.IndexError.
Proof.
  intros H. apply index_out_of_range. rewrite prefix_table_length. lia.
Qed.

Lemma in_table_cases (unit : string) :
  in_table unit = true -> In unit (map fst prefix_table).
Proof.
  unfold in_table. intros H. apply existsb_exists in H.
  destruct H as [n [Hin E]]. apply String.eqb_eq in E. subst n. exact Hin.
Qed.

(** A unit of the table is found by the loop, at the index of its entry. *)
Lemma find_unit_in_table (unit : string) :
  in_table unit = true ->
  exists i, find_unit unit unit_entries None = Some i /\ (0 <= i < 17)%Z
            /\ Py.index prefix_table i = Py.Ok (unit, multiplier i).
Proof.
  intros H. apply in_table_cases in H. rewrite table_names_eq in H.
  cbn [In] in H.
  repeat (destruct H as [<- | H]);
    [eexists; split; [vm_compute; reflexivity | split; [lia | reflexivity]] .. | contradiction].
Qed.

(** Any other unit leaves [new_unit_idx] at [None]. *)
Lemma find_unit_not_in_table (unit : string) :
  in_table unit = false -> find_unit unit unit_entries None = None.
Proof.
  unfold in_table. rewrite table_names_eq, unit_entries_eq.
  cbn [existsb find_unit]. intros H.
  repeat (apply Bool.orb_false_iff in H; destruct H as [? H]).
  repeat match goal with E : String.eqb _ _ = false |- _ => rewrite E; clear E end.
  reflexivity.
Qed.

Lemma unit_index_eq (unit : string) :
  unit_index unit =
  find_unit (if String.eqb unit "px" then "um" else unit) unit_entries None.
Proof. unfold unit_index. rewrite build_lookup_table_eq. reflexivity. Qed.

Lemma unit_index_recognized (unit : string) :
  recognized unit = true ->
  exists i name, unit_index unit = Some i /\ (0 <= i < 17)%Z
                 /\ Py.index prefix_table i = Py.Ok (name, multiplier i).
Proof.
  unfold recognized. intros H. rewrite unit_index_eq.
  destruct (String.eqb unit "px") eqn:E.
  - exists 6%Z, "um". repeat split; reflexivity || lia.
  - cbn in H. destruct (find_unit_in_table unit H) as [i [F [R I]]].
    exists i, unit. auto.
Qed.

Lemma unit_index_unrecognized (unit : string) :
  recognized unit = false -> unit_index unit = None.
Proof.
  unfold recognized. intros H. apply Bool.orb_false_iff in H.
  destruct H as [E T]. rewrite unit_index_eq, E.
  apply find_unit_not_in_table. exact T.
Qed.

(** [convert_unit] on a recognized unit, with the table lookups resolved. *)
Lemma convert_unit_recognized (value : Q) (unit : string) (i : Z) :
  unit_index unit = Some i -> (0 <= i < 17)%Z ->
  convert_unit value unit =
  (let* idx := suitable_unit_idx (value * multiplier i) in
   let* new := Py.index prefix_table idx in
   Py.Ok (value * multiplier i / snd new,
          if String.eqb unit "px" then "px" else fst new,
          snd new / multiplier i)).
Proof.
  intros U R. unfold convert_unit. unfold unit_index in U.
  rewrite build_lookup_table_eq in *. cbn [snd] in U. rewrite U.
  destruct (index_prefix_table i R) as [name I].
  cbn [Py.index_opt]. rewrite I. cbn [Py.bind snd]. reflexivity.
Qed.

Lemma convert_unit_unrecognized (value : Q) (unit : string) :
  recognized unit = false -> convert_unit value unit = Py.Raise Py.TypeError.
Proof.
  intros H. pose proof (unit_index_unrecognized unit H) as U.
  unfold convert_unit. unfold unit_index in U.
  rewrite build_lookup_table_eq in *. cbn [snd] in U. rewrite U.
  reflexivity.
Qed.

End LookupTable.

(** ** The selected prefix *)

Section Selection.

Local Open Scope Q_scope.

Lemma multiplier_pos (i : Z) : 0 < multiplier i.
Proof. apply pow10_pos. Qed.

Lemma multiplier_neq_0 (i : Z) : ~ multiplier i == 0.
Proof. apply pow10_neq_0. Qed.

Lemma suitable_unit_idx_pos (x : Q) :
  0 < x -> suitable_unit_idx x = Py.Ok (Np.ilog10 x / 3 + 8)%Z.
Proof.
  intros H. unfold suitable_unit_idx, Np.floor_log10.
  pose proof (proj1 (Qgt_alt x 0) H) as C.
  change (Qcompare x 0 = Gt) in C. rewrite C. reflexivity.
Qed.

Lemma suitable_unit_idx_zero (x : Q) :
  x == 0 -> suitable_unit_idx x = Py.Raise Py.OverflowError.
Proof.
  intros H. unfold suitable_unit_idx, Np.floor_log10.
  pose proof (proj1 (Qeq_alt x 0) H) as C.
  change (Qcompare x 0 = Eq) in C. rewrite C. reflexivity.
Qed.

Lemma suitable_unit_idx_neg (x : Q) :
  x < 0 -> suitable_unit_idx x = Py.Raise Py.ValueError.
Proof.
  intros H. unfold suitable_unit_idx, Np.floor_log10.
  pose proof (proj1 (Qlt_alt x 0) H) as C.
  change (Qcompare x 0 = Lt) in C. rewrite C. reflexivity.
Qed.

Lemma ilog10_bounds (x : Q) (a b : Z) :
  10 ^ a <= x -> x < 10 ^ b -> (a <= Np.ilog10 x < b)%Z.
Proof.
  intros Hlo Hhi.
  assert (Hx : 0 < x) by (eapply Qlt_le_trans; [apply pow10_pos | exact Hlo]).
  destruct (ilog10_spec x Hx) as [L U].
  assert (Np.ilog10 x < b)%Z
    by (apply pow10_lt_inv; eapply Qle_lt_trans; eassumption).
  assert (a < Np.ilog10 x + 1)%Z
    by (apply pow10_lt_inv; eapply Qle_lt_trans; eassumption).
  lia.
Qed.

Lemma in_metres_eq (value : Q) (unit : string) (i : Z) :
  unit_index unit = Some i -> in_metres value unit = value * multiplier i.
Proof. intros U. unfold in_metres. rewrite U. reflexivity. Qed.

(** With the index in [0 .. 16] the mantissa lies in [[1, 1000)]. *)
Lemma mantissa_bounds (x : Q) (s : Z) :
  0 < x -> s = (Np.ilog10 x / 3 + 8)%Z ->
  1 <= x / multiplier s /\ x / multiplier s < 1000.
Proof.
  intros Hx Hs.
  destruct (ilog10_spec x Hx) as [L U].
  set (p := Np.ilog10 x) in *.
  assert (B : (3 * s - 24 <= p < 3 * s - 24 + 3)%Z).
  { pose proof (Z.div_mod p 3 ltac:(lia)) as D.
    pose proof (Z.mod_pos_bound p 3 ltac:(lia)) as M. lia. }
  pose proof (multiplier_pos s) as Mp.
  split.
  - apply Qle_shift_div_l; [exact Mp|]. rewrite Qmult_1_l.
    eapply Qle_trans; [|exact L]. unfold multiplier. apply pow10_le. lia.
  - apply Qlt_shift_div_r; [exact Mp|].
    eapply Qlt_le_trans; [exact U|].
    change 1000 with (10 ^ 3). unfold multiplier. rewrite <- pow10_plus.
    apply pow10_le. lia.
Qed.

(** What [convert_unit] does on a positive value in a recognized unit, by
    the position of the selected index. *)
Lemma convert_unit_positive (value : Q) (unit : string) (i : Z) :
  unit_index unit = Some i -> (0 <= i < 17)%Z -> 0 < value ->
  let x := value * multiplier i in
  let s := (Np.ilog10 x / 3 + 8)%Z in
  suitable_unit_idx x = Py.Ok s /\
  convert_unit value unit =
    (let* new := Py.index prefix_table s in
     Py.Ok (x / snd new, if String.eqb unit "px" then "px" else fst new,
            snd new / multiplier i)).
Proof.
  intros U R Hv x s.
  assert (Hx : 0 < x).
  { unfold x. apply Qmult_lt_0_compat; [exact Hv | apply multiplier_pos]. }
  split; [apply suitable_unit_idx_pos; exact Hx|].
  rewrite (convert_unit_recognized value unit i U R).
  fold x. rewrite (suitable_unit_idx_pos x Hx). reflexivity.
Qed.

End Selection.

(** ** The tolerance *)

Section Tolerance.

Local Open Scope Q_scope.

Lemma tol_pos : 0 < tol.
Proof. reflexivity. Qed.

(** Equal rationals are equal up to the tolerance. *)
Lemma close_eq (a b : Q) : a == b -> close a b.
Proof.
  intros E. unfold close.
  assert (Z0 : Qabs (a - b) == 0).
  { rewrite E. setoid_replace (b - b) with 0 using relation Qeq by ring.
    reflexivity. }
  rewrite Z0. apply Qmult_le_0_compat; [discriminate | apply Qabs_nonneg].
Qed.

(** A number kept away from two powers of ten lies between them. *)
Lemma within_range (lo hi : Z) (x : Q) :
  within lo hi x -> 10 ^ lo <= x /\ x < 10 ^ hi.
Proof.
  intros [L U]. split.
  - eapply Qle_trans; [|exact L].
    rewrite <- (Qmult_1_r (10 ^ lo)) at 1.
    apply Qmult_le_l; [apply pow10_pos | discriminate].
  - eapply Qle_lt_trans; [exact U|].
    rewrite <- (Qmult_1_r (10 ^ hi)) at 2.
    apply Qmult_lt_l; [apply pow10_pos | reflexivity].
Qed.

(** What a list lookup returns is an element of the list. *)
Lemma index_In {A} (l : list A) (j : Z) (a : A) :
  Py.index l j = Py.Ok a -> In a l.
Proof.
  unfold Py.index. cbv zeta.
  destruct (_ || _); [discriminate|].
  destruct (nth_error l _) as [b|] eqn:E; [|discriminate].
  intros H. injection H as <-. eapply nth_error_In. exact E.
Qed.

End Tolerance.

(** ** [convert_unit]: the stated properties *)

Section ConvertUnit.

Local Open Scope Q_scope.

Lemma roundtrip_arith (v mi m : Q) :
  ~ mi == 0 -> ~ m == 0 -> (v * mi / m) * (m / mi) == v.
Proof. intros Hi Hm. field. split; assumption. Qed.

(** In the range where the selected index can be used, the table lookup
    succeeds; the entry found has the multiplier of the index taken modulo
    the length of the table. *)
Lemma selected_entry (s : Z) :
  (-17 <= s < 17)%Z ->
  exists name, Py.index prefix_table s
               = Py.Ok (name, multiplier (if (s <? 0)%Z then s + 17 else s)).
Proof.
  intros H. destruct (Z.ltb_spec s 0) as [N|N].
  - rewrite index_prefix_table_neg by lia. apply index_prefix_table. lia.
  - apply index_prefix_table. lia.
Qed.

(** On the rationals, from 10^-75 up to 10^27 metres a triple is returned,
    its product is the value given, and the factor is the quotient of the
    multipliers of the entry selected and of the unit given. *)
Lemma roundtrip_exact (value : Q) (unit : string) :
  0 < value -> recognized unit = true ->
  10 ^ (-75) <= in_metres value unit -> in_metres value unit < 10 ^ 27 ->
  exists new_value new_unit factor i s chosen,
    convert_unit value unit = Py.Ok (new_value, new_unit, factor)
    /\ new_value * factor == value
    /\ unit_index unit = Some i
    /\ suitable_unit_idx (in_metres value unit) = Py.Ok s
    /\ Py.index prefix_table s = Py.Ok chosen
    /\ new_unit = (if String.eqb unit "px" then "px" else fst chosen)
    /\ factor == snd chosen / multiplier i.
Proof.
  intros Hv Hu Hlo Hhi.
  destruct (unit_index_recognized unit Hu) as [i [_ [U [R _]]]].
  rewrite (in_metres_eq value unit i U) in *.
  destruct (convert_unit_positive value unit i U R Hv) as [S C].
  cbv zeta in S, C.
  pose proof (ilog10_bounds _ _ _ Hlo Hhi) as B.
  set (x := value * multiplier i) in *.
  set (s := (Np.ilog10 x / 3 + 8)%Z) in *.
  assert (Rs : (-17 <= s < 17)%Z).
  { unfold s.
    pose proof (Z.div_mod (Np.ilog10 x) 3 ltac:(lia)) as D.
    pose proof (Z.mod_pos_bound (Np.ilog10 x) 3 ltac:(lia)) as M. lia. }
  destruct (selected_entry s Rs) as [name I].
  rewrite I in C. cbn [Py.bind fst snd] in C.
  eexists _, _, _, i, s, _.
  split; [exact C|]. split.
  - unfold x. apply roundtrip_arith; apply multiplier_neq_0.
  - split; [exact U|]. split; [exact S|]. split; [exact I|].
    split; reflexivity.
Qed.

(** C1 (as amended): for every positive value in a recognized unit whose
    magnitude in metres lies between 10^-75 and 10^27, at a relative
    distance of at least [tol] from both, [convert_unit] returns a triple
    [(new_value, new_unit, factor)]; [new_value * factor] is the value
    given, up to [tol], and [factor] is, up to [tol], the multiplier of the
    table entry whose unit is returned divided by the multiplier of the
    input unit. *)
Theorem convert_unit_roundtrip (value : Q) (unit : string) :
  0 < value -> recognized unit = true ->
  within (-75) 27 (in_metres value unit) ->
  exists new_value new_unit factor i chosen,
    convert_unit value unit = Py.Ok (new_value, new_unit, factor)
    /\ close (new_value * factor) value
    /\ unit_index unit = Some i
    /\ In chosen prefix_table
    /\ new_unit = (if String.eqb unit "px" then "px" else fst chosen)
    /\ close factor (snd chosen / multiplier i).
Proof.
  intros Hv Hu W. destruct (within_range _ _ _ W) as [Hlo Hhi].
  destruct (roundtrip_exact value unit Hv Hu Hlo Hhi)
    as [nv [nu [f [i [s [chosen [C [RT [U [_ [I [N F]]]]]]]]]]]].
  exists nv, nu, f, i, chosen.
  split; [exact C|]. split; [apply close_eq; exact RT|].
  split; [exact U|]. split; [exact (index_In _ _ _ I)|].
  split; [exact N | apply close_eq; exact F].
Qed.

Lemma convert_unit_roundtrip_witness :
  exists new_value new_unit factor,
    convert_unit 17550 "nm" = Py.Ok (new_value, new_unit, factor)
    /\ close (new_value * factor) 17550.
Proof.
  destruct (convert_unit_roundtrip 17550 "nm")
    as [nv [nu [f [i [c [C [RT _]]]]]]].
  - reflexivity.
  - reflexivity.
  - split; vm_compute; discriminate.
  - exists nv, nu, f. split; assumption.
Defined.

(** C1 (as stated) fails: 10^30 metres is a positive value in a
    recognized unit, and [convert_unit] raises [IndexError] instead of
    returning a triple. *)
Lemma convert_unit_roundtrip_not_total :
  0 < 10 ^ 30 /\ recognized "m" = true
  /\ convert_unit (10 ^ 30) "m" = Py.Raise Py.IndexError.
Proof. split; [reflexivity|]. split; reflexivity. Qed.

(** On the rationals, from 10^-24 up to 10^27 metres the index selected
    is one of the table's and the value returned lies in [[1, 1000)]. *)
Lemma selects_prefix_exact (value : Q) (unit : string) :
  0 < value -> recognized unit = true ->
  10 ^ (-24) <= in_metres value unit -> in_metres value unit < 10 ^ 27 ->
  exists p s name new_value new_unit factor,
    (10 ^ p <= in_metres value unit /\ in_metres value unit < 10 ^ (p + 1))
    /\ p = Np.ilog10 (in_metres value unit)
    /\ s = (p / 3 + 8)%Z
    /\ suitable_unit_idx (in_metres value unit) = Py.Ok s
    /\ (0 <= s < 17)%Z
    /\ Py.index prefix_table s = Py.Ok (name, multiplier s)
    /\ convert_unit value unit = Py.Ok (new_value, new_unit, factor)
    /\ new_value = in_metres value unit / multiplier s
    /\ new_unit = (if String.eqb unit "px" then "px" else name)
    /\ 1 <= new_value /\ new_value < 1000.
Proof.
  intros Hv Hu Hlo Hhi.
  destruct (unit_index_recognized unit Hu) as [i [_ [U [R _]]]].
  rewrite (in_metres_eq value unit i U) in *.
  destruct (convert_unit_positive value unit i U R Hv) as [S C].
  cbv zeta in S, C.
  pose proof (ilog10_bounds _ _ _ Hlo Hhi) as B.
  set (x := value * multiplier i) in *.
  assert (Hx : 0 < x) by (eapply Qlt_le_trans; [apply pow10_pos | exact Hlo]).
  destruct (ilog10_spec x Hx) as [L Up].
  set (s := (Np.ilog10 x / 3 + 8)%Z) in *.
  assert (Rs : (0 <= s < 17)%Z).
  { unfold s.
    pose proof (Z.div_mod (Np.ilog10 x) 3 ltac:(lia)) as D.
    pose proof (Z.mod_pos_bound (Np.ilog10 x) 3 ltac:(lia)) as M. lia. }
  destruct (index_prefix_table s Rs) as [name I].
  rewrite I in C. cbn [Py.bind fst snd] in C.
  destruct (mantissa_bounds x s Hx eq_refl) as [M1 M2].
  exists (Np.ilog10 x), s, name. eexists _, _, _.
  split; [split; assumption|]. split; [reflexivity|]. split; [reflexivity|].
  split; [exact S|]. split; [exact Rs|]. split; [exact I|].
  split; [exact C|]. split; [reflexivity|]. split; [reflexivity|].
  split; assumption.
Qed.

(** C2 (as amended): for every positive value in a recognized unit whose
    magnitude in metres lies in the interval of one of the 17 prefixes,
    between [10^(3m)] and [10^(3m+3)] with [-8 <= m <= 8], at a relative
    distance of at least [tol] from both, the index selected is
    [floor (p / 3) + 8] with [p] the floor of the decimal logarithm of the
    magnitude; it is [m + 8], one of the table's, and the value returned is
    the magnitude divided by the multiplier of that entry, up to [tol], and
    lies in [[1, 1000)]. *)
Theorem convert_unit_selects_prefix (value : Q) (unit : string) (m : Z) :
  0 < value -> recognized unit = true ->
  (-8 <= m <= 8)%Z ->
  within (3 * m) (3 * m + 3) (in_metres value unit) ->
  exists p s name new_value new_unit factor,
    (10 ^ p <= in_metres value unit /\ in_metres value unit < 10 ^ (p + 1))
    /\ s = (p / 3 + 8)%Z
    /\ s = (m + 8)%Z
    /\ suitable_unit_idx (in_metres value unit) = Py.Ok s
    /\ (0 <= s < 17)%Z
    /\ Py.index prefix_table s = Py.Ok (name, multiplier s)
    /\ convert_unit value unit = Py.Ok (new_value, new_unit, factor)
    /\ close new_value (in_metres value unit / multiplier s)
    /\ new_unit = (if String.eqb unit "px" then "px" else name)
    /\ 1 <= new_value /\ new_value < 1000.
Proof.
  intros Hv Hu Hm W. destruct (within_range _ _ _ W) as [Hlo Hhi].
  assert (Lo : 10 ^ (-24) <= in_metres value unit)
    by (eapply Qle_trans; [apply pow10_le | exact Hlo]; lia).
  assert (Hi : in_metres value unit < 10 ^ 27)
    by (eapply Qlt_le_trans; [exact Hhi | apply pow10_le]; lia).
  destruct (selects_prefix_exact value unit Hv Hu Lo Hi)
    as [p [s [name [nv [nu [f [P [Ep [Es [S [Rs [I [C [N [Nu B]]]]]]]]]]]]]]].
  pose proof (ilog10_bounds _ _ _ Hlo Hhi) as Bp. rewrite <- Ep in Bp.
  exists p, s, name, nv, nu, f.
  split; [exact P|]. split; [exact Es|]. split.
  { rewrite Es.
    pose proof (Z.div_mod p 3 ltac:(lia)) as D.
    pose proof (Z.mod_pos_bound p 3 ltac:(lia)) as M. lia. }
  split; [exact S|]. split; [exact Rs|]. split; [exact I|].
  split; [exact C|]. split; [rewrite N; apply close_eq; reflexivity|].
  split; [exact Nu | exact B].
Qed.

Lemma convert_unit_selects_prefix_witness :
  exists new_value new_unit factor,
    convert_unit 17550 "nm" = Py.Ok (new_value, new_unit, factor)
    /\ new_unit = "um" /\ 1 <= new_value /\ new_value < 1000.
Proof.
  destruct (convert_unit_selects_prefix 17550 "nm" (-2))
    as [p [s [name [nv [nu [f [_ [_ [_ [_ [_ [_ [C [_ [_ [L U]]]]]]]]]]]]]]]].
  - reflexivity.
  - reflexivity.
  - lia.
  - split; vm_compute; discriminate.
  - exists nv, nu, f. split; [exact C|]. split; [|split; assumption].
    assert (E : convert_unit 17550 "nm"
                = Py.Ok (17550 * multiplier 5 / multiplier 6, "um",
                         multiplier 6 / multiplier 5)) by reflexivity.
    rewrite E in C. injection C as _ N _. symmetry. exact N.
Defined.

(** C2 (as stated) fails at the upper end of the table's range.  The double
    9.999999999999999e26 is below 10^27, so 9.999999999999999e26 m lies
    within the range of the table; its logarithm, 27 - 5.4e-17, is not a
    double, and the nearest double is 27.0: the index computed is 17, and
    the lookup raises [IndexError] instead of returning a value. *)
Lemma convert_unit_selects_prefix_edge :
  let value := F64.hex 0x9d971e4fe8401 89 in
  0 < F64.to_Q value
  /\ recognized "m" = true
  /\ 10 ^ (-24) <= in_metres (F64.to_Q value) "m"
  /\ in_metres (F64.to_Q value) "m" < 10 ^ 27
  /\ 10 ^ 27 * (1 - (2 # 10000000000000000)) < in_metres (F64.to_Q value) "m"
  /\ F64.suitable_unit_idx value = Py.Ok 17%Z
  /\ F64.convert_unit value "m" = Py.Raise Py.IndexError.
Proof.
  cbv zeta. split; [reflexivity|]. split; [reflexivity|].
  split; [vm_compute; discriminate|]. split; [reflexivity|].
  split; [reflexivity|]. split; vm_compute; reflexivity.
Qed.

(** On the rationals, the error of a value without a logarithm, in a
    recognized unit. *)
Lemma convert_unit_domain_error (value : Q) (unit : string) :
  recognized unit = true -> value <= 0 ->
  convert_unit value unit
  = Py.Raise (if Qeq_bool value 0 then Py.OverflowError else Py.ValueError).
Proof.
  intros Hu H.
  destruct (unit_index_recognized unit Hu) as [i [_ [U [R _]]]].
  rewrite (convert_unit_recognized value unit i U R).
  destruct (Qeq_bool value 0) eqn:E.
  - apply Qeq_bool_iff in E.
    rewrite suitable_unit_idx_zero; [reflexivity|]. rewrite E. ring.
  - apply Qeq_bool_neq in E.
    rewrite suitable_unit_idx_neg; [reflexivity|].
    apply Qle_lteq in H. destruct H as [N|Z0]; [|contradiction].
    apply Qlt_le_trans with (0 * multiplier i).
    + apply Qmult_lt_compat_r; [apply multiplier_pos | exact N].
    + rewrite Qmult_0_l. apply Qle_refl.
Qed.

(** C3 (as amended): a value that is zero or negative, given in a
    recognized unit, makes [convert_unit] fail with a domain error,
    [ValueError] or [OverflowError] ([OverflowError] at zero), and a unit
    that is neither in the table of 17 prefixes nor the sentinel ["px"]
    makes it fail with a lookup error ([TypeError]); no result is
    returned. *)
Theorem convert_unit_errors (value : Q) (unit : string) :
  value <= 0 \/ recognized unit = false ->
  exists e : Py.exn,
    convert_unit value unit = Py.Raise e
    /\ (recognized unit = false -> e = Py.TypeError)
    /\ (recognized unit = true -> e = Py.ValueError \/ e = Py.OverflowError)
    /\ (recognized unit = true -> value == 0 -> e = Py.OverflowError).
Proof.
  intros H. destruct (recognized unit) eqn:Hu.
  - destruct H as [H|H]; [|discriminate].
    rewrite (convert_unit_domain_error value unit Hu H).
    eexists. split; [reflexivity|]. split; [discriminate|]. split.
    + intros _. destruct (Qeq_bool value 0); [right | left]; reflexivity.
    + intros _ Z0. apply Qeq_bool_iff in Z0. rewrite Z0. reflexivity.
  - exists Py.TypeError. split; [apply convert_unit_unrecognized; exact Hu|].
    split; [reflexivity|]. split; discriminate.
Qed.

Lemma convert_unit_errors_witness :
  (exists e, convert_unit 0 "um" = Py.Raise e /\ e = Py.OverflowError)
  /\ (exists e, convert_unit (-3) "um" = Py.Raise e
                /\ (e = Py.ValueError \/ e = Py.OverflowError))
  /\ (exists e, convert_unit 3 "inch" = Py.Raise e /\ e = Py.TypeError).
Proof.
  split; [|split].
  - destruct (convert_unit_errors 0 "um") as [e [C [_ [_ Z0]]]];
      [left; discriminate|].
    exists e. split; [exact C | apply Z0; reflexivity].
  - destruct (convert_unit_errors (-3) "um") as [e [C [_ [D _]]]];
      [left; discriminate|].
    exists e. split; [exact C | apply D; reflexivity].
  - destruct (convert_unit_errors 3 "inch") as [e [C [T _]]];
      [right; reflexivity|].
    exists e. split; [exact C | apply T; reflexivity].
Defined.

(** C3 (as stated) fails: ["px"] is not among the 17 entries of the table,
    and [convert_unit] returns a result for it. *)
Lemma convert_unit_px_not_in_table :
  in_table "px" = false /\ Py.is_ok (convert_unit 1 "px") = true.
Proof. split; reflexivity. Qed.

(** C4: the documented example, [convert_unit(17.55e3, 'nm')], gives
    17.55, ['um'] and the factor 1000. *)
Theorem convert_unit_documented_example :
  exists new_value factor,
    convert_unit ((1755 # 100) * 1000) "nm" = Py.Ok (new_value, "um", factor)
    /\ new_value == 1755 # 100 /\ factor == 1000.
Proof. eexists _, _. split; [reflexivity|]. split; reflexivity. Qed.

(** C5: for every value, [convert_unit value "px"] is [convert_unit value
    "um"] with the unit returned replaced by ["px"]: the same new value and
    factor whenever a result is returned, and the same exception
    otherwise. *)
Theorem convert_unit_px (value : Q) :
  convert_unit value "px" =
  match convert_unit value "um" with
  | Py.Ok (new_value, _, factor) => Py.Ok (new_value, "px", factor)
  | Py.Raise e => Py.Raise e
  end.
Proof.
  assert (Upx : unit_index "px" = Some 6%Z) by reflexivity.
  assert (Uum : unit_index "um" = Some 6%Z) by reflexivity.
  rewrite (convert_unit_recognized value "px" 6 Upx ltac:(lia)).
  rewrite (convert_unit_recognized value "um" 6 Uum ltac:(lia)).
  destruct (suitable_unit_idx (value * multiplier 6)) as [s|e]; [|reflexivity].
  cbn [Py.bind].
  destruct (Py.index prefix_table s) as [new|e]; reflexivity.
Qed.

(** Below 10^-24 metres the selected index is negative, whatever the
    value. *)
Lemma small_value_negative_index (value : Q) (unit : string) :
  0 < value -> recognized unit = true -> in_metres value unit < 10 ^ (-24) ->
  exists s, suitable_unit_idx (in_metres value unit) = Py.Ok s /\ (s < 0)%Z.
Proof.
  intros Hv Hu Hhi.
  destruct (unit_index_recognized unit Hu) as [i [_ [U [R _]]]].
  rewrite (in_metres_eq value unit i U) in *.
  set (x := value * multiplier i) in *.
  assert (Hx : 0 < x).
  { unfold x. apply Qmult_lt_0_compat; [exact Hv | apply multiplier_pos]. }
  destruct (ilog10_spec x Hx) as [L _].
  assert (P : (Np.ilog10 x < -24)%Z)
    by (apply pow10_lt_inv; eapply Qle_lt_trans; eassumption).
  exists (Np.ilog10 x / 3 + 8)%Z. split.
  - apply suitable_unit_idx_pos. exact Hx.
  - pose proof (Z.div_mod (Np.ilog10 x) 3 ltac:(lia)) as D.
    pose proof (Z.mod_pos_bound (Np.ilog10 x) 3 ltac:(lia)) as M. lia.
Qed.

(** From 10^27 metres on the selected index is past the end of the table,
    and the lookup raises. *)
Lemma large_value_index_error (value : Q) (unit : string) :
  0 < value -> recognized unit = true -> 10 ^ 27 <= in_metres value unit ->
  convert_unit value unit = Py.Raise Py.IndexError.
Proof.
  intros Hv Hu Hlo.
  destruct (unit_index_recognized unit Hu) as [i [_ [U [R _]]]].
  rewrite (in_metres_eq value unit i U) in *.
  destruct (convert_unit_positive value unit i U R Hv) as [_ C].
  cbv zeta in C. rewrite C.
  set (x := value * multiplier i) in *.
  assert (Hx : 0 < x) by (eapply Qlt_le_trans; [apply pow10_pos | exact Hlo]).
  destruct (ilog10_spec x Hx) as [_ Up].
  assert (P : (27 < Np.ilog10 x + 1)%Z)
    by (apply pow10_lt_inv; eapply Qle_lt_trans; eassumption).
  rewrite index_prefix_table_out; [reflexivity|].
  right.
  pose proof (Z.div_mod (Np.ilog10 x) 3 ltac:(lia)) as D.
  pose proof (Z.mod_pos_bound (Np.ilog10 x) 3 ltac:(lia)) as M. lia.
Qed.

(** Below 10^-75 metres the negative index falls off the front of the
    table as well. *)
Lemma tiny_value_index_error (value : Q) (unit : string) :
  0 < value -> recognized unit = true -> in_metres value unit < 10 ^ (-75) ->
  convert_unit value unit = Py.Raise Py.IndexError.
Proof.
  intros Hv Hu Hhi.
  destruct (unit_index_recognized unit Hu) as [i [_ [U [R _]]]].
  rewrite (in_metres_eq value unit i U) in *.
  destruct (convert_unit_positive value unit i U R Hv) as [_ C].
  cbv zeta in C. rewrite C.
  set (x := value * multiplier i) in *.
  assert (Hx : 0 < x).
  { unfold x. apply Qmult_lt_0_compat; [exact Hv | apply multiplier_pos]. }
  destruct (ilog10_spec x Hx) as [L _].
  assert (P : (Np.ilog10 x < -75)%Z)
    by (apply pow10_lt_inv; eapply Qle_lt_trans; eassumption).
  rewrite index_prefix_table_out; [reflexivity|].
  left.
  pose proof (Z.div_mod (Np.ilog10 x) 3 ltac:(lia)) as D.
  pose proof (Z.mod_pos_bound (Np.ilog10 x) 3 ltac:(lia)) as M. lia.
Qed.

(** C10: the index computed in [convert_unit] is used unguarded.  A tenth
    of a yoctometre is a positive value in a recognized unit, below 10^-24
    metres: the index selected is -1, no error is raised, the unit
    returned is the last of the table (["Ym"]) and the value returned is
    far below 1.  A million yottametres is a positive value above 10^27
    metres: the lookup raises [IndexError]. *)
Theorem convert_unit_index_unguarded :
  (exists value unit s new_value new_unit factor,
      0 < value /\ recognized unit = true
      /\ in_metres value unit < 10 ^ (-24)
      /\ suitable_unit_idx (in_metres value unit) = Py.Ok s /\ (s < 0)%Z
      /\ convert_unit value unit = Py.Ok (new_value, new_unit, factor)
      /\ ~ (1 <= new_value /\ new_value < 1000)
      /\ Py.index prefix_table s = Py.index prefix_table 16
      /\ Py.index prefix_table 16 = Py.Ok (new_unit, multiplier 16)
      /\ new_unit = "Ym")
  /\ (exists value unit,
        0 < value /\ recognized unit = true
        /\ 10 ^ 27 <= in_metres value unit
        /\ convert_unit value unit = Py.Raise Py.IndexError).
Proof.
  split.
  - exists (10 ^ (-25)), "m", (-1)%Z. eexists _, _, _.
    split; [reflexivity|]. split; [reflexivity|]. split; [reflexivity|].
    split; [reflexivity|]. split; [lia|]. split; [reflexivity|].
    split; [|split; [reflexivity|split; reflexivity]].
    intros [L _]. vm_compute in L. apply L. reflexivity.
  - exists (10 ^ 30), "m".
    split; [reflexivity|]. split; [reflexivity|].
    split; [vm_compute; discriminate | reflexivity].
Qed.

End ConvertUnit.

(** ** [add_scalebar]: the integrality check *)

Section AddScalebar.

Local Open Scope Q_scope.

Lemma fold_qmin_in (l : list Q) : forall x : Q,
  fold_left Plot.qmin l x = x \/ In (fold_left Plot.qmin l x) l.
Proof.
  induction l as [|y l IH]; intros x; cbn [fold_left].
  - left. reflexivity.
  - destruct (IH (Plot.qmin x y)) as [E|E].
    + rewrite E. unfold Plot.qmin.
      destruct (Qle_bool x y); [left | right; left]; reflexivity.
    + right. right. exact E.
Qed.

(** The minimum of a non-empty array is one of its elements. *)
Lemma array_min_in (x : Q) (l : list Q) : In (Plot.array_min (x :: l)) (x :: l).
Proof.
  cbn [Plot.array_min].
  destruct (fold_qmin_in l x) as [E|E]; [left; symmetry; exact E | right; exact E].
Qed.

Lemma enumerate_from_bounds {A} (l : list A) : forall (i0 j : Z) (a : A),
  In (j, a) (Py.enumerate_from i0 l) ->
  (i0 <= j < i0 + Z.of_nat (List.length l))%Z.
Proof.
  induction l as [|b l IH]; intros i0 j a H; cbn in H.
  - contradiction.
  - destruct H as [E|H].
    + injection E as <- _. cbn [List.length]. lia.
    + apply IH in H. cbn [List.length]. lia.
Qed.

Lemma np_where_bounds (mask : list bool) (j : Z) :
  In j (Plot.np_where mask) -> (0 <= j < Z.of_nat (List.length mask))%Z.
Proof.
  unfold Plot.np_where, Py.enumerate. intros H.
  apply in_map_iff in H. destruct H as [[j' b] [E H]]. cbn in E. subst j'.
  apply filter_In in H. destruct H as [H _].
  apply enumerate_from_bounds in H. lia.
Qed.

Lemma enumerate_from_in {A} (l : list A) (a : A) : forall i0 : Z,
  In a l -> exists j, In (j, a) (Py.enumerate_from i0 l).
Proof.
  induction l as [|b l IH]; intros i0 H; cbn in H; [contradiction|].
  destruct H as [->|H].
  - exists i0. left. reflexivity.
  - destruct (IH (i0 + 1)%Z H) as [j J]. exists j. right. exact J.
Qed.

Lemma np_where_nonempty (mask : list bool) :
  In true mask -> Plot.np_where mask <> [].
Proof.
  intros H. destruct (enumerate_from_in mask true 0%Z H) as [j J].
  assert (I : In j (Plot.np_where mask)).
  { unfold Plot.np_where, Py.enumerate. apply in_map_iff.
    exists (j, true). split; [reflexivity|].
    apply filter_In. split; [exact J | reflexivity]. }
  intros E. rewrite E in I. exact I.
Qed.

Lemma index_in_range {A} (l : list A) (j : Z) :
  (0 <= j < Z.of_nat (List.length l))%Z ->
  exists a, Py.index l j = Py.Ok a /\ In a l.
Proof.
  intros H. unfold Py.index. cbv zeta.
  rewrite (proj2 (Z.ltb_ge j 0)) by lia. cbv iota.
  rewrite (proj2 (Z.ltb_ge j 0)) by lia.
  rewrite (proj2 (Z.leb_gt (Z.of_nat (List.length l)) j)) by lia.
  cbn [orb].
  destruct (nth_error l (Z.to_nat j)) as [a|] eqn:E.
  - exists a. split; [reflexivity|]. eapply nth_error_In. exact E.
  - apply nth_error_None in E. lia.
Qed.

(** The search for the closest good value always finds one. *)
Lemma closest_good_value_ok (scalebar_width : Q) :
  exists g, Plot.closest_good_value scalebar_width = Py.Ok g
            /\ In g Plot.good_values.
Proof.
  unfold Plot.closest_good_value. cbv zeta.
  set (difference := map (fun g : Z => Qabs (scalebar_width - inject_Z g))
                         Plot.good_values).
  set (dmin := Plot.array_min difference).
  set (mask := map (fun d : Q => Qeq_bool d dmin) difference).
  assert (Hmin : In dmin difference) by apply array_min_in.
  assert (Ht : In true mask).
  { unfold mask. apply in_map_iff. exists dmin. split; [|exact Hmin].
    apply Qeq_bool_iff. reflexivity. }
  pose proof (np_where_nonempty mask Ht) as Hne.
  pose proof (np_where_bounds mask) as Hb.
  destruct (Plot.np_where mask) as [|j js]; [congruence|].
  change (Py.index (j :: js) 0) with (Py.Ok j). cbn [Py.bind].
  apply index_in_range.
  specialize (Hb j (or_introl eq_refl)).
  unfold mask, difference in Hb. rewrite !length_map in Hb. exact Hb.
Qed.

(** [is_integer] holds exactly of the integers. *)
Lemma is_integer_spec (x : Q) :
  Plot.is_integer x = true <-> exists n : Z, x == inject_Z n.
Proof.
  unfold Plot.is_integer. split.
  - intros H. apply Qeq_bool_iff in H. exists (Qfloor x). exact H.
  - intros [n H]. apply Qeq_bool_iff.
    rewrite (Qfloor_comp x (inject_Z n) H), Qfloor_Z. exact H.
Qed.

(** On an integer, [int] is exact. *)
Lemma to_int_exact (x : Q) :
  Plot.is_integer x = true -> inject_Z (Plot.to_int x) == x.
Proof.
  intros H. apply is_integer_spec in H. destruct H as [n H].
  unfold Plot.to_int. destruct (Qle_bool 0 x).
  - rewrite (Qfloor_comp x (inject_Z n) H), Qfloor_Z. symmetry. exact H.
  - rewrite (Qceiling_comp x (inject_Z n) H), Qceiling_Z. symmetry. exact H.
Qed.

(** What the list comprehension over [d.items()] leaves in [kwargs]: the
    caller's value where there is one, the default otherwise. *)
Lemma setdefault_all (d : list (string * Plot.kwarg)) :
  forall (kwargs : gmap string Plot.kwarg) (k : string),
    fold_left Plot.setdefault d kwargs !! k =
    match kwargs !! k with
    | Some v => Some v
    | None => (list_to_map d : gmap string Plot.kwarg) !! k
    end.
Proof.
  induction d as [|[k0 v0] d IH]; intros kwargs k.
  - cbn. rewrite lookup_empty. destruct (kwargs !! k); reflexivity.
  - cbn [fold_left list_to_map foldr]. rewrite IH.
    unfold Plot.setdefault. cbn [fst snd].
    destruct (decide (k0 = k)) as [->|N].
    + destruct (kwargs !! k) as [v|] eqn:E.
      * rewrite E. reflexivity.
      * rewrite !lookup_insert_eq. reflexivity.
    + destruct (kwargs !! k0) as [v|] eqn:E.
      * rewrite (lookup_insert_ne _ k0 k) by exact N. reflexivity.
      * rewrite !(lookup_insert_ne _ k0 k) by exact N. reflexivity.
Qed.

(** The defaults do not touch a keyword that is not one of theirs. *)
Lemma setdefault_passed_keywords (scalebar_width_px : Q)
    (kwargs : gmap string Plot.kwarg) (k : string) :
  In k Plot.passed_keywords -> kwargs !! k = None ->
  fold_left Plot.setdefault (scalebar_defaults scalebar_width_px) kwargs !! k
  = None.
Proof.
  intros Hk N. rewrite setdefault_all, N.
  cbn in Hk. destruct Hk as [<-|[<-|[<-|[]]]]; reflexivity.
Qed.

(** The call of the constructor goes through when no key of [kwargs] is a
    keyword of the call. *)
Lemma AnchoredSizeBar_ok (size : Q) (label : Plot.number * string)
    (kwargs : gmap string Plot.kwarg) :
  (forall k, In k Plot.passed_keywords -> kwargs !! k = None) ->
  Plot.AnchoredSizeBar size label kwargs
  = Py.Ok {| Plot.size := size; Plot.label := label;
             Plot.bar_kwargs := kwargs; Plot.alpha := None |}.
Proof.
  intros H. unfold Plot.AnchoredSizeBar, Plot.passed_keywords.
  cbn [existsb].
  rewrite (H "transform"), (H "size"), (H "label") by (cbn; tauto).
  reflexivity.
Qed.

Lemma free_keywords (kwargs : gmap string Plot.kwarg) (k : string) :
  free_of_passed_keywords kwargs -> In k Plot.passed_keywords ->
  kwargs !! k = None.
Proof.
  intros [T [S L]] Hk. cbn in Hk.
  destruct Hk as [<-|[<-|[<-|[]]]]; assumption.
Qed.




End AddScalebar.

(** ** [set_symmetry]: the input is left alone *)

Section SetSymmetry.

Import Orientation.

Variable canon : quaternion -> quaternion.

(** C8: on the model of [set_symmetry], for every orientation object and
    every symmetry group the call returns a reference to a new object,
    one that did not exist before and so is not the input, and every
    object that existed, the input among them, keeps its data. *)
Theorem set_symmetry_new_object (group : list quaternion) (o : positive)
    (heap : gmap positive orientation) (obj : orientation) :
  heap !! o = Some obj ->
  exists o' heap',
    set_symmetry canon group o heap = Some (o', heap')
    /\ heap !! o' = None
    /\ o' <> o
    /\ heap' !! o = Some obj
    /\ (forall (k : positive) (v : orientation),
          heap !! k = Some v -> heap' !! k = Some v)
    /\ heap' !! o' = Some {| data := map (reduce canon group) (data obj);
                             symmetry := group |}.
Proof.
  intros H. unfold set_symmetry. rewrite H.
  set (o' := fresh (dom heap)).
  assert (F : heap !! o' = None).
  { apply not_elem_of_dom. apply is_fresh. }
  assert (N : o' <> o) by (intros E; rewrite E in F; congruence).
  eexists o', _. split; [reflexivity|]. split; [exact F|]. split; [exact N|].
  split; [|split].
  - rewrite lookup_insert_ne by exact N. exact H.
  - intros k v K. rewrite lookup_insert_ne; [exact K|].
    intros E. rewrite <- E in K. congruence.
  - apply lookup_insert_eq.
Qed.

End SetSymmetry.

(** The orientation of the tests, reduced under the two-fold axis along z
    with the quaternions kept as composed: a second object appears and the
    first still holds (0.6088, 0, 0, 0.7934). *)
Lemma set_symmetry_new_object_witness :
  let q := {| Orientation.qw := 6088 # 10000; Orientation.qx := 0;
              Orientation.qy := 0; Orientation.qz := 7934 # 10000 |} in
  let C2 := [ {| Orientation.qw := 1; Orientation.qx := 0;
                 Orientation.qy := 0; Orientation.qz := 0 |};
              {| Orientation.qw := 0; Orientation.qx := 0;
                 Orientation.qy := 0; Orientation.qz := 1 |} ] in
  let obj := {| Orientation.data := [q]; Orientation.symmetry := [] |} in
  let heap : gmap positive Orientation.orientation := {[ 1%positive := obj ]} in
  exists o' heap',
    Orientation.set_symmetry (fun p => p) C2 1%positive heap = Some (o', heap')
    /\ o' <> 1%positive
    /\ heap' !! 1%positive = Some obj.
Proof.
  intros q C2 obj heap.
  destruct (set_symmetry_new_object (fun p => p) C2 1%positive heap obj)
    as [o' [heap' [S [_ [N [K _]]]]]].
  - reflexivity.
  - exists o', heap'. split; [exact S|]. split; [exact N | exact K].
Defined.

(** * Further properties of [convert_unit] *)

Section ConvertUnitMore.

Local Open Scope Q_scope.

(** A unit of the table is not the sentinel, and its entry carries its own
    name. *)
Lemma unit_index_in_table (unit : string) :
  in_table unit = true ->
  exists i, unit_index unit = Some i /\ (0 <= i < 17)%Z
            /\ Py.index prefix_table i = Py.Ok (unit, multiplier i)
            /\ String.eqb unit "px" = false.
Proof.
  intros H. pose proof (in_table_cases unit H) as C.
  rewrite table_names_eq in C. cbn [In] in C.
  repeat (destruct C as [<- | C]);
    [eexists; split; [vm_compute; reflexivity
                     | split; [lia | split; reflexivity]] .. | contradiction].
Qed.

(** The entry selected for a recognized unit carries the name returned. *)
Lemma unit_index_named (unit : string) :
  recognized unit = true ->
  exists i name, unit_index unit = Some i /\ (0 <= i < 17)%Z
                 /\ Py.index prefix_table i = Py.Ok (name, multiplier i)
                 /\ (if String.eqb unit "px" then "px" else name) = unit.
Proof.
  unfold recognized. intros H.
  destruct (String.eqb unit "px") eqn:E.
  - apply String.eqb_eq in E. subst unit.
    exists 6%Z, "um". split; [reflexivity|]. split; [lia|]. split; reflexivity.
  - cbn in H. destruct (unit_index_in_table unit H) as [i [U [R [I _]]]].
    exists i, unit. split; [exact U|]. split; [exact R|]. split; [exact I|].
    reflexivity.
Qed.

(** The integer logarithm does not tell equal rationals apart. *)
Lemma ilog10_compat (x y : Q) : 0 < x -> x == y -> Np.ilog10 x = Np.ilog10 y.
Proof.
  intros Hx E. destruct (ilog10_spec x Hx) as [L U].
  symmetry. apply ilog10_unique; rewrite <- E; assumption.
Qed.

(** A value from 1 up to 1000 selects the entry of its own unit. *)
Lemma suitable_value_selects_own_unit (value : Q) (i : Z) :
  1 <= value -> value < 1000 ->
  (Np.ilog10 (value * multiplier i) / 3 + 8)%Z = i.
Proof.
  intros Hlo Hhi.
  assert (Mp := multiplier_pos i).
  assert (B : (3 * i - 24 <= Np.ilog10 (value * multiplier i) < 3 * i - 24 + 3)%Z).
  { apply ilog10_bounds.
    - fold (multiplier i). rewrite <- (Qmult_1_l (multiplier i)) at 1.
      apply Qmult_le_compat_r; [exact Hlo | apply Qlt_le_weak; exact Mp].
    - rewrite pow10_plus. fold (multiplier i). rewrite Qmult_comm.
      change (10 ^ 3) with 1000.
      apply Qmult_lt_l; [exact Mp | exact Hhi]. }
  pose proof (Z.div_mod (Np.ilog10 (value * multiplier i)) 3 ltac:(lia)) as D.
  pose proof (Z.mod_pos_bound (Np.ilog10 (value * multiplier i)) 3 ltac:(lia)) as M.
  lia.
Qed.

Lemma suitable_value_kept (value : Q) (unit : string) :
  recognized unit = true -> 1 <= value -> value < 1000 ->
  exists new_value factor,
    convert_unit value unit = Py.Ok (new_value, unit, factor)
    /\ new_value == value /\ factor == 1.
Proof.
  intros Hu Hlo Hhi.
  destruct (unit_index_named unit Hu) as [i [name [U [R [I N]]]]].
  assert (Hv : 0 < value) by (eapply Qlt_le_trans; [|exact Hlo]; reflexivity).
  destruct (convert_unit_positive value unit i U R Hv) as [_ C].
  cbv zeta in C.
  rewrite (suitable_value_selects_own_unit value i Hlo Hhi), I in C.
  cbn [Py.bind fst snd] in C. rewrite N in C.
  eexists _, _. split; [exact C|].
  pose proof (multiplier_neq_0 i) as Z0.
  split; field; exact Z0.
Qed.

(** Every entry of the table is named by a unit of the table. *)
Lemma index_prefix_table_named (j : Z) :
  (0 <= j < 17)%Z ->
  exists name, Py.index prefix_table j = Py.Ok (name, multiplier j)
               /\ in_table name = true.
Proof.
  intros H.
  assert (C : (j = 0 \/ j = 1 \/ j = 2 \/ j = 3 \/ j = 4 \/ j = 5 \/ j = 6 \/ j = 7
              \/ j = 8 \/ j = 9 \/ j = 10 \/ j = 11 \/ j = 12 \/ j = 13 \/ j = 14
              \/ j = 15 \/ j = 16)%Z) by lia.
  repeat (destruct C as [-> | C]); try subst j; eexists; split; reflexivity.
Qed.

(** A unit of the table is a recognized unit. *)
Lemma in_table_recognized (unit : string) :
  in_table unit = true -> recognized unit = true.
Proof. intros H. unfold recognized. rewrite H. apply Bool.orb_true_r. Qed.

(** On the rationals, the result depends on the length only. *)
Lemma same_length_exact (value1 value2 : Q) (unit1 unit2 : string) :
  in_table unit1 = true -> in_table unit2 = true -> 0 < value1 ->
  in_metres value1 unit1 == in_metres value2 unit2 ->
  match convert_unit value1 unit1, convert_unit value2 unit2 with
  | Py.Ok (new_value1, new_unit1, _), Py.Ok (new_value2, new_unit2, _) =>
      new_value1 == new_value2 /\ new_unit1 = new_unit2
  | Py.Raise e1, Py.Raise e2 => e1 = e2
  | _, _ => False
  end.
Proof.
  intros H1 H2 Hv E.
  destruct (unit_index_in_table unit1 H1) as [i1 [U1 [R1 [_ P1]]]].
  destruct (unit_index_in_table unit2 H2) as [i2 [U2 [R2 [_ P2]]]].
  rewrite (in_metres_eq _ _ _ U1), (in_metres_eq _ _ _ U2) in E.
  assert (X1 : 0 < value1 * multiplier i1)
    by (apply Qmult_lt_0_compat; [exact Hv | apply multiplier_pos]).
  assert (X2 : 0 < value2 * multiplier i2) by (rewrite <- E; exact X1).
  assert (Hv2 : 0 < value2).
  { destruct (Qlt_le_dec 0 value2) as [G|G]; [exact G|].
    exfalso. apply (Qlt_irrefl 0). eapply Qlt_le_trans; [exact X2|].
    rewrite <- (Qmult_0_l (multiplier i2)).
    apply Qmult_le_compat_r; [exact G | apply Qlt_le_weak, multiplier_pos]. }
  destruct (convert_unit_positive value1 unit1 i1 U1 R1 Hv) as [_ C1].
  destruct (convert_unit_positive value2 unit2 i2 U2 R2 Hv2) as [_ C2].
  cbv zeta in C1, C2. rewrite C1, C2, P1, P2.
  rewrite <- (ilog10_compat _ _ X1 E).
  destruct (Py.index prefix_table (Np.ilog10 (value1 * multiplier i1) / 3 + 8))
    as [new|e]; cbn [Py.bind]; [|reflexivity].
  split; [|reflexivity]. rewrite E. reflexivity.
Qed.

(** X1: the result depends on the length only, not on the unit it is given
    in: two positive values in units of the table that are the same length
    in metres, a length between two successive powers of 1000 from 10^-75
    to 10^27 and at a relative distance of at least [tol] from both, are
    both converted, to the same unit and, up to [tol], to the same
    value. *)
Theorem convert_unit_same_length (value1 value2 : Q) (unit1 unit2 : string)
    (m : Z) :
  in_table unit1 = true -> in_table unit2 = true -> 0 < value1 ->
  in_metres value1 unit1 == in_metres value2 unit2 ->
  (-25 <= m <= 8)%Z ->
  within (3 * m) (3 * m + 3) (in_metres value1 unit1) ->
  exists new_value1 new_value2 new_unit factor1 factor2,
    convert_unit value1 unit1 = Py.Ok (new_value1, new_unit, factor1)
    /\ convert_unit value2 unit2 = Py.Ok (new_value2, new_unit, factor2)
    /\ close new_value1 new_value2.
Proof.
  intros H1 H2 Hv E Hm W. destruct (within_range _ _ _ W) as [Hlo Hhi].
  assert (Lo : 10 ^ (-75) <= in_metres value1 unit1)
    by (eapply Qle_trans; [apply pow10_le | exact Hlo]; lia).
  assert (Hi : in_metres value1 unit1 < 10 ^ 27)
    by (eapply Qlt_le_trans; [exact Hhi | apply pow10_le]; lia).
  destruct (roundtrip_exact value1 unit1 Hv (in_table_recognized _ H1) Lo Hi)
    as [nv1 [nu1 [f1 [_ [_ [_ [C1 _]]]]]]].
  pose proof (same_length_exact value1 value2 unit1 unit2 H1 H2 Hv E) as S.
  rewrite C1 in S.
  destruct (convert_unit value2 unit2) as [[[nv2 nu2] f2]|e]; [|contradiction].
  destruct S as [V <-].
  exists nv1, nv2, nu1, f1, f2.
  split; [exact C1|]. split; [reflexivity|]. apply close_eq. exact V.
Qed.

(** The two examples of the docstring: 17550 nm and 0.01755 mm. *)
Lemma convert_unit_same_length_witness :
  exists new_value1 new_value2 new_unit factor1 factor2,
    convert_unit 17550 "nm" = Py.Ok (new_value1, new_unit, factor1)
    /\ convert_unit (1755 # 100000) "mm" = Py.Ok (new_value2, new_unit, factor2)
    /\ close new_value1 new_value2.
Proof.
  apply (convert_unit_same_length 17550 (1755 # 100000) "nm" "mm" (-2));
    [reflexivity | reflexivity | reflexivity | reflexivity | lia |].
  split; vm_compute; discriminate.
Defined.

(** X2: a value from 1 to 1000 in a recognized unit, at a relative
    distance of at least [tol] from both, is already suitable: it is
    returned, up to [tol], as it is, with its own unit and the factor 1. *)
Theorem convert_unit_keeps_suitable (value : Q) (unit : string) :
  recognized unit = true -> 1 + tol <= value -> value <= 1000 * (1 - tol) ->
  exists new_value factor,
    convert_unit value unit = Py.Ok (new_value, unit, factor)
    /\ close new_value value /\ factor == 1.
Proof.
  intros Hu Hlo Hhi.
  destruct (suitable_value_kept value unit Hu) as [nv [f [C [V F]]]].
  - eapply Qle_trans; [|exact Hlo]. discriminate.
  - eapply Qle_lt_trans; [exact Hhi|]. reflexivity.
  - exists nv, f. split; [exact C|]. split; [apply close_eq; exact V | exact F].
Qed.

Lemma convert_unit_keeps_suitable_witness :
  exists new_value factor,
    convert_unit (1755 # 100) "px" = Py.Ok (new_value, "px", factor)
    /\ close new_value (1755 # 100) /\ factor == 1.
Proof.
  apply (convert_unit_keeps_suitable (1755 # 100) "px");
    [reflexivity | discriminate | discriminate].
Defined.

(** X3: converting is idempotent on the range of the table, for the units
    of the table: the value and unit returned for a length from 10^-24 up
    to 10^27 metres, converted again, come back unchanged with the
    factor 1. *)
Theorem convert_unit_idempotent (value : Q) (unit : string)
    (new_value : Q) (new_unit : string) (factor : Q) :
  0 < value -> in_table unit = true ->
  10 ^ (-24) <= in_metres value unit -> in_metres value unit < 10 ^ 27 ->
  convert_unit value unit = Py.Ok (new_value, new_unit, factor) ->
  exists new_value' factor',
    convert_unit new_value new_unit = Py.Ok (new_value', new_unit, factor')
    /\ new_value' == new_value /\ factor' == 1.
Proof.
  intros Hv Ht Hlo Hhi C.
  pose proof (in_table_recognized unit Ht) as Hu.
  destruct (unit_index_in_table unit Ht) as [i [U [R [_ Px]]]].
  rewrite (in_metres_eq value unit i U) in *.
  destruct (convert_unit_positive value unit i U R Hv) as [_ C'].
  cbv zeta in C'. rewrite C in C'.
  pose proof (ilog10_bounds _ _ _ Hlo Hhi) as B.
  set (x := value * multiplier i) in *.
  assert (Hx : 0 < x) by (eapply Qlt_le_trans; [apply pow10_pos | exact Hlo]).
  set (s := (Np.ilog10 x / 3 + 8)%Z) in *.
  assert (Rs : (0 <= s < 17)%Z).
  { unfold s.
    pose proof (Z.div_mod (Np.ilog10 x) 3 ltac:(lia)) as D.
    pose proof (Z.mod_pos_bound (Np.ilog10 x) 3 ltac:(lia)) as M. lia. }
  destruct (index_prefix_table_named s Rs) as [name [I T]].
  rewrite I, Px in C'. cbn [Py.bind fst snd] in C'.
  injection C' as -> -> _.
  destruct (mantissa_bounds x s Hx eq_refl) as [M1 M2].
  apply suitable_value_kept; [|exact M1|exact M2].
  apply in_table_recognized. exact T.
Qed.

Lemma convert_unit_idempotent_witness :
  exists new_value new_unit factor new_value' factor',
    convert_unit 17550 "nm" = Py.Ok (new_value, new_unit, factor)
    /\ convert_unit new_value new_unit = Py.Ok (new_value', new_unit, factor')
    /\ new_value' == new_value /\ factor' == 1.
Proof.
  destruct (convert_unit 17550 "nm") as [[[nv nu] f]|e] eqn:C;
    [|vm_compute in C; discriminate C].
  destruct (convert_unit_idempotent 17550 "nm" nv nu f) as [nv' [f' H]].
  - reflexivity.
  - reflexivity.
  - vm_compute. discriminate.
  - reflexivity.
  - exact C.
  - exists nv, nu, f, nv', f'. split; [reflexivity | exact H].
Defined.

(** The sentinel ["px"] is left out of X3: the unit returned is ["px"]
    whatever prefix was selected, so the second conversion starts from
    micrometres again, and on doubles it does not give the first result
    back.  999999.9999999999 px gives (999.9999999999999, px,
    1000.0000000000001), which converted again gives (0.9999999999999998,
    px, 1000.0000000000001); and 9.999999999999606e-16 px gives
    (999.9999999999607, px, 9.999999999999999e-19), which converted again
    gives (999.9999999999606, px, 1.0). *)
Lemma convert_unit_px_not_idempotent :
  (F64.convert_unit (F64.hex 0xe847fffffffff 19) "px"
   = Py.Ok (F64.hex 0xf3fffffffffff 9, "px", F64.hex 0xf400000000001 9)
   /\ F64.convert_unit (F64.hex 0xf3fffffffffff 9) "px"
      = Py.Ok (F64.hex 0xffffffffffffe (-1), "px", F64.hex 0xf400000000001 9))
  /\ (F64.convert_unit (F64.hex 0x203af9ee7554e (-50)) "px"
      = Py.Ok (F64.hex 0xf3ffffffffea6 9, "px", F64.hex 0x2725dd1d243ab (-60))
      /\ F64.convert_unit (F64.hex 0xf3ffffffffea6 9) "px"
         = Py.Ok (F64.hex 0xf3ffffffffea5 9, "px", F64.hex 0 0)).
Proof. repeat split; vm_compute; reflexivity. Qed.

(** On the rationals, from 10^-75 up to 10^-24 metres the negative index
    wraps around. *)
Lemma wraps_around_exact (value : Q) (unit : string) :
  0 < value -> recognized unit = true ->
  10 ^ (-75) <= in_metres value unit -> in_metres value unit < 10 ^ (-24) ->
  exists s name new_value new_unit factor,
    s = (Np.ilog10 (in_metres value unit) / 3 + 8)%Z
    /\ suitable_unit_idx (in_metres value unit) = Py.Ok s
    /\ (-17 <= s < 0)%Z
    /\ Py.index prefix_table s = Py.Ok (name, multiplier (s + 17))
    /\ convert_unit value unit = Py.Ok (new_value, new_unit, factor)
    /\ new_value = in_metres value unit / multiplier (s + 17)
    /\ new_unit = (if String.eqb unit "px" then "px" else name)
    /\ new_value < 10 ^ (-48).
Proof.
  intros Hv Hu Hlo Hhi.
  destruct (unit_index_recognized unit Hu) as [i [_ [U [R _]]]].
  rewrite (in_metres_eq value unit i U) in *.
  destruct (convert_unit_positive value unit i U R Hv) as [S C].
  cbv zeta in S, C.
  pose proof (ilog10_bounds _ _ _ Hlo Hhi) as B.
  set (x := value * multiplier i) in *.
  assert (Hx : 0 < x) by (eapply Qlt_le_trans; [apply pow10_pos | exact Hlo]).
  destruct (ilog10_spec x Hx) as [_ Up].
  pose proof (Z.div_mod (Np.ilog10 x) 3 ltac:(lia)) as D.
  pose proof (Z.mod_pos_bound (Np.ilog10 x) 3 ltac:(lia)) as M.
  set (s := (Np.ilog10 x / 3 + 8)%Z) in *.
  assert (Rs : (-17 <= s < 0)%Z) by (unfold s; lia).
  assert (I0 := index_prefix_table_neg s Rs).
  destruct (index_prefix_table (s + 17) ltac:(lia)) as [name I].
  rewrite I in I0. rewrite I0 in C. cbn [Py.bind fst snd] in C.
  exists s, name. eexists _, _, _.
  split; [reflexivity|].
  split; [exact S|]. split; [exact Rs|]. split; [exact I0|].
  split; [exact C|]. split; [reflexivity|]. split; [reflexivity|].
  apply Qlt_shift_div_r; [apply multiplier_pos|].
  eapply Qlt_le_trans; [exact Up|].
  unfold multiplier. rewrite <- pow10_plus. apply pow10_le. unfold s. lia.
Qed.

(** X4: for a length between two successive powers of 1000 from 10^-75 to
    10^-24 metres, at a relative distance of at least [tol] from both, the
    negative index wraps around: no exception is raised, the entry used is
    the one 17 places further on (the large prefixes), and the value
    returned is below 10^-48. *)
Theorem convert_unit_wraps_around (value : Q) (unit : string) (m : Z) :
  0 < value -> recognized unit = true ->
  (-25 <= m <= -9)%Z ->
  within (3 * m) (3 * m + 3) (in_metres value unit) ->
  exists s name new_value new_unit factor,
    s = (m + 8)%Z
    /\ suitable_unit_idx (in_metres value unit) = Py.Ok s
    /\ (-17 <= s < 0)%Z
    /\ Py.index prefix_table s = Py.Ok (name, multiplier (s + 17))
    /\ convert_unit value unit = Py.Ok (new_value, new_unit, factor)
    /\ close new_value (in_metres value unit / multiplier (s + 17))
    /\ new_unit = (if String.eqb unit "px" then "px" else name)
    /\ new_value < 10 ^ (-48).
Proof.
  intros Hv Hu Hm W. destruct (within_range _ _ _ W) as [Hlo Hhi].
  assert (Lo : 10 ^ (-75) <= in_metres value unit)
    by (eapply Qle_trans; [apply pow10_le | exact Hlo]; lia).
  assert (Hi : in_metres value unit < 10 ^ (-24))
    by (eapply Qlt_le_trans; [exact Hhi | apply pow10_le]; lia).
  destruct (wraps_around_exact value unit Hv Hu Lo Hi)
    as [s [name [nv [nu [f [Es [S [Rs [I [C [N [Nu B]]]]]]]]]]]].
  pose proof (ilog10_bounds _ _ _ Hlo Hhi) as Bp.
  exists s, name, nv, nu, f.
  split.
  { rewrite Es.
    pose proof (Z.div_mod (Np.ilog10 (in_metres value unit)) 3 ltac:(lia)) as D.
    pose proof (Z.mod_pos_bound (Np.ilog10 (in_metres value unit)) 3 ltac:(lia)) as M.
    lia. }
  split; [exact S|]. split; [exact Rs|]. split; [exact I|].
  split; [exact C|]. split; [rewrite N; apply close_eq; reflexivity|].
  split; [exact Nu | exact B].
Qed.

Lemma convert_unit_wraps_around_witness :
  exists new_value factor,
    convert_unit (2 # 10) "ym" = Py.Ok (new_value, "Ym", factor)
    /\ new_value < 10 ^ (-48).
Proof.
  destruct (convert_unit_wraps_around (2 # 10) "ym" (-9))
    as [s [name [nv [nu [f [_ [_ [_ [_ [C [_ [_ B]]]]]]]]]]]].
  - reflexivity.
  - reflexivity.
  - lia.
  - split; vm_compute; discriminate.
  - assert (E : convert_unit (2 # 10) "ym"
                = Py.Ok ((2 # 10) * multiplier 0 / multiplier 16, "Ym",
                         multiplier 16 / multiplier 0)) by reflexivity.
    rewrite E in C. injection C as <- _ <-.
    eexists _, _. split; [reflexivity | exact B].
Defined.

(** X5: a positive value in a recognized unit whose length is beyond the
    range the indices cover, from 10^27 to 10^300 metres or from 10^-300 to
    10^-75 metres and at a relative distance of at least [tol] from these
    bounds, cannot be converted: the table lookup raises [IndexError]. *)
Theorem convert_unit_out_of_table (value : Q) (unit : string) :
  0 < value -> recognized unit = true ->
  within 27 300 (in_metres value unit)
  \/ within (-300) (-75) (in_metres value unit) ->
  convert_unit value unit = Py.Raise Py.IndexError.
Proof.
  intros Hv Hu [W|W]; destruct (within_range _ _ _ W) as [Hlo Hhi].
  - apply large_value_index_error; assumption.
  - apply tiny_value_index_error; assumption.
Qed.

(** 10^-80 and 10^30 metres cannot be converted. *)
Lemma convert_unit_out_of_table_witness :
  convert_unit (10 ^ (-56)) "ym" = Py.Raise Py.IndexError
  /\ convert_unit (10 ^ 6) "Ym" = Py.Raise Py.IndexError.
Proof.
  split.
  - apply (convert_unit_out_of_table (10 ^ (-56)) "ym");
      [reflexivity | reflexivity |].
    right. split; vm_compute; discriminate.
  - apply (convert_unit_out_of_table (10 ^ 6) "Ym");
      [reflexivity | reflexivity |].
    left. split; vm_compute; discriminate.
Defined.

(** X17: on doubles the two examples of the docstring give, bit for bit,
    what the docstring shows: [convert_unit(17.55 * 1e3, 'nm')] is
    (17.55, 'um', 999.9999999999999), with a factor one unit in the last
    place below 1000, and [convert_unit(17.55 * 1e-3, 'mm')] is
    (17.55, 'um', 0.001). *)
Theorem convert_unit_docstring_on_doubles :
  let d17_55 := F64.hex 0x18ccccccccccd 4 in
  let d1e3 := F64.hex 0xf400000000000 9 in
  let d1e_3 := F64.hex 0x0624dd2f1a9fc (-10) in
  F64.convert_unit (F64.mul d17_55 d1e3) "nm"
  = Py.Ok (d17_55, "um", F64.hex 0xf3fffffffffff 9)
  /\ F64.convert_unit (F64.mul d17_55 d1e_3) "mm"
     = Py.Ok (d17_55, "um", d1e_3)
  /\ F64.to_Q d1e3 == 1000
  /\ F64.to_Q (F64.hex 0xf3fffffffffff 9) == 1000 - 2 ^ (-43)
  /\ Qabs (F64.to_Q d17_55 - (1755 # 100)) <= 2 ^ (-49)
  /\ Qabs (F64.to_Q d1e_3 - (1 # 1000)) <= 2 ^ (-63).
Proof.
  cbv zeta. split; [vm_compute; reflexivity|].
  split; [vm_compute; reflexivity|].
  split; [reflexivity|]. split; [reflexivity|].
  split; vm_compute; discriminate.
Qed.

End ConvertUnitMore.

(** * Further properties of [add_scalebar] *)

Section AddScalebarMore.

Local Open Scope Q_scope.

Lemma qmin_le_l (a b : Q) : Plot.qmin a b <= a.
Proof.
  unfold Plot.qmin. destruct (Qle_bool a b) eqn:E.
  - apply Qle_refl.
  - apply Qlt_le_weak, Qnot_le_lt. intros C. apply Qle_bool_iff in C. congruence.
Qed.

Lemma qmin_le_r (a b : Q) : Plot.qmin a b <= b.
Proof.
  unfold Plot.qmin. destruct (Qle_bool a b) eqn:E.
  - apply Qle_bool_iff. exact E.
  - apply Qle_refl.
Qed.

Lemma fold_qmin_le (l : list Q) : forall x : Q,
  fold_left Plot.qmin l x <= x
  /\ forall y, In y l -> fold_left Plot.qmin l x <= y.
Proof.
  induction l as [|z l IH]; intros x; cbn [fold_left].
  - split; [apply Qle_refl | intros y []].
  - destruct (IH (Plot.qmin x z)) as [H1 H2]. split.
    + eapply Qle_trans; [exact H1 | apply qmin_le_l].
    + intros y [<-|Hy].
      * eapply Qle_trans; [exact H1 | apply qmin_le_r].
      * apply H2. exact Hy.
Qed.

(** The minimum of an array is below each of its elements. *)
Lemma array_min_le (a : list Q) (y : Q) : In y a -> Plot.array_min a <= y.
Proof.
  destruct a as [|x l]; [intros []|]. cbn [Plot.array_min].
  destruct (fold_qmin_le l x) as [H1 H2].
  intros [<-|Hy]; [exact H1 | apply H2; exact Hy].
Qed.

(** The first index [np.where] reports holds, and no index before it. *)
Lemma np_where_from_first (mask : list bool) : forall (i0 j : Z) (js : list Z),
  map fst (filter (fun im : Z * bool => snd im) (Py.enumerate_from i0 mask))
  = j :: js ->
  (i0 <= j)%Z
  /\ nth_error mask (Z.to_nat (j - i0)) = Some true
  /\ forall k : nat, (k < Z.to_nat (j - i0))%nat -> nth_error mask k = Some false.
Proof.
  induction mask as [|b mask IH]; intros i0 j js H.
  - discriminate H.
  - cbn [Py.enumerate_from filter snd] in H. destruct b.
    + cbn [map fst] in H. injection H as <- _.
      replace (i0 - i0)%Z with 0%Z by lia.
      split; [lia|]. split; [reflexivity|]. intros k K. cbn in K. lia.
    + destruct (IH _ _ _ H) as [L [T F]].
      split; [lia|].
      replace (Z.to_nat (j - i0)) with (S (Z.to_nat (j - (i0 + 1)))) by lia.
      split; [exact T|].
      intros [|k] K; [reflexivity|]. cbn [nth_error]. apply F. lia.
Qed.

Lemma index_nth_error {A} (l : list A) (j : Z) (a : A) :
  Py.index l j = Py.Ok a -> (0 <= j)%Z -> nth_error l (Z.to_nat j) = Some a.
Proof.
  unfold Py.index. cbv zeta. intros H N.
  rewrite (proj2 (Z.ltb_ge j 0) N) in H. cbv iota in H.
  destruct ((j <? 0)%Z || (Z.of_nat (List.length l) <=? j)%Z); [discriminate H|].
  destruct (nth_error l (Z.to_nat j)); [|discriminate H].
  injection H as ->. reflexivity.
Qed.

Lemma sorted_nth_error (l : list Z) :
  StronglySorted Z.le l ->
  forall (a b : nat) (x y : Z),
    (a <= b)%nat -> nth_error l a = Some x -> nth_error l b = Some y ->
    (x <= y)%Z.
Proof.
  induction 1 as [|z l S IH F]; intros a b x y L X Y.
  - destruct a; discriminate X.
  - destruct a as [|a], b as [|b]; cbn [nth_error] in X, Y.
    + injection X as <-. injection Y as <-. lia.
    + injection X as <-. apply nth_error_In in Y.
      rewrite Forall_forall in F. apply F. exact Y.
    + lia.
    + apply (IH a b); [lia | exact X | exact Y].
Qed.

Lemma good_values_sorted : StronglySorted Z.le Plot.good_values.
Proof.
  unfold Plot.good_values.
  repeat (apply SSorted_cons; [|repeat (apply Forall_cons_2; [lia|]); apply Forall_nil_2]).
  apply SSorted_nil.
Qed.

(** The search for the first minimum, over any ascending list of values
    and any distance. *)
Lemma first_minimum (f : Z -> Q) (vals : list Z) :
  StronglySorted Z.le vals -> vals <> [] ->
  exists g : Z,
    (let difference := map f vals in
     let dmin := Plot.array_min difference in
     let* good_value_idx :=
       Py.index (Plot.np_where (map (fun d : Q => Qeq_bool d dmin) difference)) 0 in
     Py.index vals good_value_idx) = Py.Ok g
    /\ In g vals
    /\ forall g' : Z, In g' vals ->
         f g <= f g' /\ (f g' == f g -> (g <= g')%Z).
Proof.
  intros Sorted Hne. cbv zeta.
  remember (map f vals) as difference eqn:Ed.
  remember (Plot.array_min difference) as dmin eqn:Em.
  remember (map (fun d : Q => Qeq_bool d dmin) difference) as mask eqn:Ek.
  assert (Hmin : In dmin difference).
  { rewrite Em, Ed. destruct vals as [|v vs]; [congruence|].
    cbn [map]. apply array_min_in. }
  assert (Ht : In true mask).
  { rewrite Ek. apply in_map_iff. exists dmin. split; [|exact Hmin].
    apply Qeq_bool_iff. reflexivity. }
  pose proof (np_where_nonempty mask Ht) as Hw.
  pose proof (np_where_bounds mask) as Hb.
  destruct (Plot.np_where mask) as [|j js] eqn:W; [congruence|].
  assert (I0 : Py.index (j :: js) 0 = Py.Ok j) by reflexivity.
  rewrite I0. cbn [Py.bind].
  specialize (Hb j (or_introl eq_refl)).
  rewrite Ek, Ed, !length_map in Hb.
  destruct (index_in_range vals j Hb) as [g [G Gin]].
  exists g. split; [exact G|]. split; [exact Gin|].
  apply index_nth_error in G; [|lia].
  destruct (np_where_from_first mask 0 j js W) as [_ [T F]].
  rewrite Z.sub_0_r in T, F.
  assert (Dg : f g == dmin).
  { rewrite Ek, Ed, !nth_error_map, G in T. cbn [option_map] in T.
    injection T as T. apply Qeq_bool_iff. exact T. }
  intros g' Gin'. split.
  - rewrite Dg, Em. apply array_min_le. rewrite Ed. apply in_map. exact Gin'.
  - intros Tie.
    destruct (In_nth_error _ _ Gin') as [k K].
    destruct (Nat.le_gt_cases (Z.to_nat j) k) as [L|L].
    + exact (sorted_nth_error vals Sorted _ _ _ _ L G K).
    + exfalso. specialize (F k L).
      rewrite Ek, Ed, !nth_error_map, K in F. cbn [option_map] in F.
      injection F as F.
      apply Qeq_bool_neq in F. apply F. exact (Qeq_trans _ _ _ Tie Dg).
Qed.

(** X6: the search in [add_scalebar] returns the good value closest to
    the width it is given, and the smaller one when two are equally
    close. *)
Theorem closest_good_value_closest (scalebar_width : Q) :
  exists g : Z,
    Plot.closest_good_value scalebar_width = Py.Ok g
    /\ In g Plot.good_values
    /\ forall g' : Z, In g' Plot.good_values ->
         Qabs (scalebar_width - inject_Z g) <= Qabs (scalebar_width - inject_Z g')
         /\ (Qabs (scalebar_width - inject_Z g')
             == Qabs (scalebar_width - inject_Z g) -> (g <= g')%Z).
Proof.
  exact (first_minimum (fun g : Z => Qabs (scalebar_width - inject_Z g))
                       Plot.good_values good_values_sorted
                       ltac:(discriminate)).
Qed.

(** What the constructor returns holds the arguments it was given. *)
Lemma AnchoredSizeBar_fields (size : Q) (label : Plot.number * string)
    (kwargs : gmap string Plot.kwarg) (bar : Plot.size_bar) :
  Plot.AnchoredSizeBar size label kwargs = Py.Ok bar ->
  Plot.size bar = size /\ Plot.label bar = label
  /\ Plot.bar_kwargs bar = kwargs.
Proof.
  unfold Plot.AnchoredSizeBar. destruct (existsb _ _); [discriminate|].
  intros H. injection H as <-. split; [|split]; reflexivity.
Qed.





(** X9: the keyword arguments the bar is built with are the caller's,
    completed by the seven defaults: a key the caller gave keeps the
    caller's value, any other key has its default or is absent. *)
Theorem add_scalebar_kwargs (crystal_map : Plot.crystal_map)
    (kwargs : gmap string Plot.kwarg) (w w' : Plot.world) (bar : Plot.size_bar)
    (k : string) :
  add_scalebar crystal_map kwargs w = (Py.Ok bar, w') ->
  Plot.bar_kwargs bar !! k =
  match kwargs !! k with
  | Some v => Some v
  | None =>
      (list_to_map (scalebar_defaults (Plot.size bar)) : gmap string Plot.kwarg) !! k
  end.
Proof.
  unfold add_scalebar, Plot.bind, Plot.lift, Plot.getitem.
  destruct (Py.index (Plot.shape crystal_map) (-1)) as [map_width|e1];
    [|intros H; discriminate H].
  destruct (Plot.step_sizes crystal_map !! "x") as [step_size|];
    [|intros H; discriminate H].
  destruct (convert_unit _ (Plot.scan_unit crystal_map)) as [[[width0 unit] factor]|e3];
    [|intros H; discriminate H].
  destruct (Plot.closest_good_value width0) as [g|e4]; [|intros H; discriminate H].
  destruct (Plot.is_integer (inject_Z g * factor));
    unfold Plot.ret, Plot.warn, Plot.add_artist;
    destruct (Plot.AnchoredSizeBar _ _ _) as [bar0|e5] eqn:B;
    intros H; try discriminate H; injection H as <- _;
    destruct (AnchoredSizeBar_fields _ _ _ _ B) as [Es [_ Ek]];
    cbn [Plot.set_alpha Plot.bar_kwargs Plot.size]; rewrite Es, Ek;
    apply (setdefault_all (scalebar_defaults _)).
Qed.

(** The caller moves the bar to the lower right corner and thickens it. *)
Lemma add_scalebar_kwargs_witness :
  let crystal_map :=
    {| Plot.shape := [100; 117]%Z;
       Plot.step_sizes := {["x" := 15 # 10]};
       Plot.scan_unit := "um" |} in
  let w := {| Plot.warnings_log := []; Plot.artists := [] |} in
  let kwargs : gmap string Plot.kwarg :=
    {["loc" := Plot.KInt 4; "size_vertical" := Plot.KFloat 2]} in
  exists bar w',
    add_scalebar crystal_map kwargs w = (Py.Ok bar, w')
    /\ Plot.bar_kwargs bar !! "loc" = Some (Plot.KInt 4)
    /\ Plot.bar_kwargs bar !! "sep" = Some (Plot.KInt 3).
Proof.
  intros crystal_map w kwargs.
  destruct (add_scalebar crystal_map kwargs w) as [[bar|e] w'] eqn:E;
    [|vm_compute in E; discriminate E].
  exists bar, w'. split; [reflexivity|]. split.
  - rewrite (add_scalebar_kwargs crystal_map kwargs w w' bar "loc" E).
    reflexivity.
  - rewrite (add_scalebar_kwargs crystal_map kwargs w w' bar "sep" E).
    reflexivity.
Defined.

(** X10: when a tenth of the map width is already a suitable number in a
    recognized scan unit (from 1 to 1000, at a relative distance of at
    least [tol] from both), and the keyword arguments of the caller hold
    none of [transform], [size] and [label], no warning is issued: the
    label is a good value, an [int], with the scan unit, and the bar is,
    up to [tol], that many units long. *)
Theorem add_scalebar_same_unit (crystal_map : Plot.crystal_map)
    (kwargs : gmap string Plot.kwarg) (w : Plot.world)
    (map_width : Z) (step_size : Q) :
  Py.index (Plot.shape crystal_map) (-1) = Py.Ok map_width ->
  Plot.step_sizes crystal_map !! "x" = Some step_size ->
  recognized (Plot.scan_unit crystal_map) = true ->
  1 + tol <= (1 # 10) * inject_Z map_width * step_size ->
  (1 # 10) * inject_Z map_width * step_size <= 1000 * (1 - tol) ->
  free_of_passed_keywords kwargs ->
  exists (g : Z) (bar : Plot.size_bar),
    In g Plot.good_values
    /\ add_scalebar crystal_map kwargs w
       = (Py.Ok bar, {| Plot.warnings_log := Plot.warnings_log w;
                        Plot.artists := (Plot.artists w ++ [bar])%list |})
    /\ Plot.label bar
       = (Plot.PyInt g,
          if String.eqb (Plot.scan_unit crystal_map) "um" then "μm"
          else Plot.scan_unit crystal_map)
    /\ close (Plot.size bar) (inject_Z g / step_size).
Proof.
  intros Hshape Hstep Hu Hlo Hhi Hfree.
  assert (Lo : 1 <= (1 # 10) * inject_Z map_width * step_size)
    by (eapply Qle_trans; [|exact Hlo]; discriminate).
  assert (Hi : (1 # 10) * inject_Z map_width * step_size < 1000)
    by (eapply Qle_lt_trans; [exact Hhi|]; reflexivity).
  destruct (suitable_value_kept _ _ Hu Lo Hi) as [nv [f [C [_ Hf]]]].
  destruct (closest_good_value_ok nv) as [g [G Gin]].
  assert (Hw : inject_Z g * f == inject_Z g) by (rewrite Hf; ring).
  assert (His : Plot.is_integer (inject_Z g * f) = true).
  { apply is_integer_spec. exists g. exact Hw. }
  assert (Ht : Plot.to_int (inject_Z g * f) = g).
  { apply inject_Z_injective. rewrite (to_int_exact _ His). exact Hw. }
  unfold add_scalebar, Plot.bind, Plot.lift, Plot.getitem.
  rewrite Hshape, Hstep, C, G, His, Ht.
  unfold Plot.ret, Plot.add_artist.
  rewrite AnchoredSizeBar_ok.
  - exists g. eexists. split; [exact Gin|]. split; [reflexivity|].
    split; [reflexivity|].
    cbn [Plot.set_alpha Plot.size]. apply close_eq. rewrite Hw. reflexivity.
  - intros k Hk.
    apply (setdefault_passed_keywords (inject_Z g * f / step_size));
      [exact Hk|].
    apply free_keywords; assumption.
Qed.

(** 117 pixels of 1.5 um: the bar is labelled 20 um. *)
Lemma add_scalebar_same_unit_witness :
  let crystal_map :=
    {| Plot.shape := [100; 117]%Z;
       Plot.step_sizes := {["x" := 15 # 10]};
       Plot.scan_unit := "um" |} in
  let w := {| Plot.warnings_log := []; Plot.artists := [] |} in
  exists bar,
    add_scalebar crystal_map ∅ w
    = (Py.Ok bar, {| Plot.warnings_log := []; Plot.artists := [bar] |})
    /\ Plot.label bar = (Plot.PyInt 20, "μm").
Proof.
  intros crystal_map w.
  destruct (add_scalebar_same_unit crystal_map ∅ w 117 (15 # 10))
    as [g [bar [_ [A [L _]]]]].
  - reflexivity.
  - reflexivity.
  - reflexivity.
  - discriminate.
  - discriminate.
  - split; [|split]; reflexivity.
  - exists bar. split; [exact A|].
    assert (E : fst (add_scalebar crystal_map ∅ w)
                = Py.Ok {| Plot.size := inject_Z 20 * (multiplier 6 / multiplier 6) / (15 # 10);
                           Plot.label := (Plot.PyInt 20, "μm");
                           Plot.bar_kwargs :=
                             fold_left Plot.setdefault
                               (scalebar_defaults
                                  (inject_Z 20 * (multiplier 6 / multiplier 6) / (15 # 10))) ∅;
                           Plot.alpha := Some (6 # 10) |}).
    { vm_compute. reflexivity. }
    rewrite A in E. cbn [fst] in E. injection E as ->. reflexivity.
Defined.

End AddScalebarMore.

(** * [plot_map]: the colours of a phase map *)

Section PhaseMapColours.

Import PhaseMap.

Lemma insert_unique_In (x z : Z) (l : list Z) :
  In z (insert_unique x l) <-> z = x \/ In z l.
Proof.
  induction l as [|y l IH]; cbn [insert_unique].
  - cbn. intuition congruence.
  - destruct (Z.ltb_spec x y) as [L|L]; [cbn; intuition congruence|].
    destruct (Z.eqb_spec x y) as [E|E].
    + subst y. cbn. intuition congruence.
    + cbn [In]. rewrite IH. intuition congruence.
Qed.

Lemma insert_unique_sorted (x : Z) (l : list Z) :
  StronglySorted Z.lt l -> StronglySorted Z.lt (insert_unique x l).
Proof.
  induction 1 as [|y l S IH F]; cbn [insert_unique].
  - apply SSorted_cons; [apply SSorted_nil | apply Forall_nil_2].
  - destruct (Z.ltb_spec x y) as [L|L].
    + apply SSorted_cons; [apply SSorted_cons; assumption|].
      apply Forall_cons_2; [exact L|].
      eapply Forall_impl; [|exact F]. cbn. intros; lia.
    + destruct (Z.eqb_spec x y) as [E|E].
      * apply SSorted_cons; assumption.
      * apply SSorted_cons; [exact IH|].
        rewrite Forall_forall in *. intros z Hz.
        apply insert_unique_In in Hz. destruct Hz as [->|Hz].
        -- lia.
        -- apply F. exact Hz.
Qed.

(** The model of [np.unique]: the values of the array, in strictly
    ascending order. *)
Lemma np_unique_sorted (a : list Z) : StronglySorted Z.lt (np_unique a).
Proof.
  induction a as [|x a IH]; cbn [np_unique fold_right].
  - apply SSorted_nil.
  - apply insert_unique_sorted. exact IH.
Qed.

Lemma np_unique_In (a : list Z) (z : Z) : In z (np_unique a) <-> In z a.
Proof.
  induction a as [|x a IH]; cbn [np_unique fold_right]; [tauto|].
  fold (np_unique a). rewrite insert_unique_In, IH. cbn. intuition congruence.
Qed.

Lemma sorted_lookup_lt (l : list Z) :
  StronglySorted Z.lt l ->
  forall (i i' : nat) (x y : Z),
    (i < i')%nat -> l !! i = Some x -> l !! i' = Some y -> (x < y)%Z.
Proof.
  induction 1 as [|z l S IH F]; intros i i' x y L X Y.
  - destruct i; discriminate X.
  - destruct i as [|i], i' as [|i']; cbn in X, Y; try lia.
    + injection X as <-. rewrite Forall_forall in F. apply F.
      apply list_elem_of_In. eapply list_elem_of_lookup_2. exact Y.
    + apply (IH i i'); [lia | exact X | exact Y].
Qed.

Lemma sorted_lookup_inj (l : list Z) (i i' : nat) (x : Z) :
  StronglySorted Z.lt l -> l !! i = Some x -> l !! i' = Some x -> i = i'.
Proof.
  intros S X Y.
  destruct (Nat.lt_trichotomy i i') as [L|[E|L]]; [|exact E|].
  - pose proof (sorted_lookup_lt l S i i' x x L X Y). lia.
  - pose proof (sorted_lookup_lt l S i' i x x L Y X). lia.
Qed.

Lemma lookup_map {A B} (f : A -> B) (l : list A) (i : nat) :
  map f l !! i = option_map f (l !! i).
Proof.
  revert i. induction l as [|a l IH]; intros [|i]; cbn; try reflexivity.
  apply IH.
Qed.

(** One pass of the loop, at one pixel. *)
Lemma lookup_paint (phase_id : list (option Z)) (data : list rgb) (ic : Z * rgb)
    (j : nat) (pid : option Z) (pixel : rgb) :
  phase_id !! j = Some pid -> data !! j = Some pixel ->
  paint phase_id data ic !! j =
  Some (match pid with
        | Some p => if (p =? fst ic)%Z then times pixel (snd ic) else pixel
        | None => pixel
        end).
Proof.
  intros P D. unfold paint. rewrite lookup_zip_with, P, D. reflexivity.
Qed.

(** The loop leaves alone the pixels of no phase of the list. *)
Lemma fold_paint_other (phase_id : list (option Z)) (ics : list (Z * rgb))
    (j : nat) (pid : option Z) :
  phase_id !! j = Some pid ->
  (forall p c, pid = Some p -> ~ In (p, c) ics) ->
  forall (data : list rgb) (pixel : rgb),
    data !! j = Some pixel ->
    fold_left (paint phase_id) ics data !! j = Some pixel.
Proof.
  intros P. induction ics as [|[i c] ics IH]; intros N data pixel D.
  - exact D.
  - cbn [fold_left]. apply IH.
    + intros p c' E I. apply (N p c' E). right. exact I.
    + rewrite (lookup_paint _ _ _ _ _ _ P D). cbn [fst snd].
      destruct pid as [p|]; [|reflexivity].
      destruct (Z.eqb_spec p i) as [->|_]; [|reflexivity].
      exfalso. apply (N i c eq_refl). left. reflexivity.
Qed.

(** The loop multiplies a pixel by the colour listed with its phase, once,
    when the phases of the list are distinct. *)
Lemma fold_paint_phase (phase_id : list (option Z)) (j : nat) (p : Z) :
  phase_id !! j = Some (Some p) ->
  forall (ics : list (Z * rgb)) (k : nat) (c : rgb),
    (forall (i i' : nat) (c1 c2 : rgb),
        ics !! i = Some (p, c1) -> ics !! i' = Some (p, c2) -> i = i') ->
    ics !! k = Some (p, c) ->
    forall (data : list rgb) (pixel : rgb),
      data !! j = Some pixel ->
      fold_left (paint phase_id) ics data !! j = Some (times pixel c).
Proof.
  intros P. induction ics as [|[i0 c0] ics IH]; intros k c U K data pixel D.
  - destruct k; discriminate K.
  - cbn [fold_left].
    pose proof (lookup_paint _ _ (i0, c0) _ _ _ P D) as L. cbn [fst snd] in L.
    destruct k as [|k]; cbn in K.
    + injection K as -> ->. rewrite Z.eqb_refl in L.
      apply (fold_paint_other phase_id ics j (Some p) P); [|exact L].
      intros p' c' E I. injection E as <-.
      apply list_elem_of_In, list_elem_of_lookup_1 in I. destruct I as [i I].
      specialize (U 0%nat (S i) c c' eq_refl I). discriminate U.
    + destruct (Z.eqb_spec p i0) as [->|_].
      * specialize (U 0%nat (S k) c0 c eq_refl K). discriminate U.
      * apply (IH k c); [|exact K|exact L].
        intros i i' c1 c2 I1 I2.
        specialize (U (S i) (S i') c1 c2 I1 I2). lia.
Qed.

(** X11: in the array of a phase map every pixel without a phase is white,
    and a pixel of phase [p] has the colour listed at the rank of [p] among
    the distinct phase ids of the map in ascending order (times the white
    it starts from), or stays white when the list of colours is shorter
    than that. *)
Theorem phase_map_data_pixel (phase_id : list (option Z)) (colors_rgb : list rgb)
    (j : nat) (pid : option Z) :
  phase_id !! j = Some pid ->
  match pid with
  | None => phase_map_data phase_id colors_rgb !! j = Some white
  | Some p =>
      exists k : nat,
        np_unique (not_nan phase_id) !! k = Some p
        /\ phase_map_data phase_id colors_rgb !! j =
           Some (match colors_rgb !! k with
                 | Some c => times white c
                 | None => white
                 end)
  end.
Proof.
  intros P. unfold phase_map_data.
  set (ids := np_unique (not_nan phase_id)).
  assert (W : map (fun _ : option Z => white) phase_id !! j = Some white)
    by (rewrite lookup_map, P; reflexivity).
  destruct pid as [p|].
  - assert (Hin : In p ids).
    { apply np_unique_In. apply list_elem_of_In, list_elem_of_omap.
      exists (Some p). split; [|reflexivity].
      eapply list_elem_of_lookup_2. exact P. }
    apply list_elem_of_In, list_elem_of_lookup_1 in Hin. destruct Hin as [k K].
    exists k. split; [exact K|].
    destruct (colors_rgb !! k) as [c|] eqn:C.
    + apply (fold_paint_phase phase_id j p P _ k c); [| |exact W].
      * intros i i' c1 c2 I1 I2.
        apply lookup_zip_with_Some in I1, I2.
        destruct I1 as [x1 [y1 [E1 [L1 _]]]], I2 as [x2 [y2 [E2 [L2 _]]]].
        injection E1 as <- _. injection E2 as <- _.
        exact (sorted_lookup_inj ids i i' p (np_unique_sorted _) L1 L2).
      * apply lookup_zip_with_Some. exists p, c. auto.
    + apply (fold_paint_other phase_id _ j (Some p) P); [|exact W].
      intros p' c' E I. injection E as <-.
      apply list_elem_of_In, list_elem_of_lookup_1 in I. destruct I as [i I].
      apply lookup_zip_with_Some in I.
      destruct I as [x [y [E [L1 L2]]]]. injection E as <- <-.
      pose proof (sorted_lookup_inj ids i k p (np_unique_sorted _) L1 K) as ->.
      congruence.
  - apply (fold_paint_other phase_id _ j None P); [|exact W].
    intros p c E. discriminate E.
Qed.

End PhaseMapColours.

(** The colour a white pixel is multiplied by comes out as it is. *)
Lemma times_white (c : PhaseMap.rgb) :
  let '(r, g, b) := PhaseMap.times PhaseMap.white c in
  let '(cr, cg, cb) := c in
  (r == cr /\ g == cg /\ b == cb)%Q.
Proof.
  destruct c as [[cr cg] cb]. cbn. repeat split; ring.
Qed.

(** A map of four pixels, two phases, one pixel not indexed. *)
Lemma phase_map_data_pixel_witness :
  let phase_id := [Some 2; None; Some 1; Some 2]%Z in
  let blue : PhaseMap.rgb := (12 # 100, 47 # 100, 71 # 100)%Q in
  let orange : PhaseMap.rgb := (1, 5 # 10, 5 # 100)%Q in
  PhaseMap.phase_map_data phase_id [blue; orange] !! 0%nat
  = Some (PhaseMap.times PhaseMap.white orange)
  /\ PhaseMap.phase_map_data phase_id [blue; orange] !! 1%nat
     = Some PhaseMap.white.
Proof.
  intros phase_id blue orange. split.
  - destruct (phase_map_data_pixel phase_id [blue; orange] 0 (Some 2%Z) eq_refl)
      as [k [K D]].
    assert (k = 1%nat) as ->.
    { destruct k as [|[|k]]; [discriminate K | reflexivity | discriminate K]. }
    exact D.
  - exact (phase_map_data_pixel phase_id [blue; orange] 1 None eq_refl).
Defined.

(** * [add_overlay]: the rescaled overlay *)

Section RescaledOverlay.

Import Overlay.

Local Open Scope Q_scope.

Lemma qmax_ge_l (a b : Q) : a <= qmax a b.
Proof.
  unfold qmax. destruct (Qle_bool a b) eqn:E.
  - apply Qle_bool_iff. exact E.
  - apply Qle_refl.
Qed.

Lemma qmax_ge_r (a b : Q) : b <= qmax a b.
Proof.
  unfold qmax. destruct (Qle_bool a b) eqn:E.
  - apply Qle_refl.
  - apply Qlt_le_weak, Qnot_le_lt. intros C. apply Qle_bool_iff in C. congruence.
Qed.

Lemma fold_qmax_ge (l : list Q) : forall x : Q,
  x <= fold_left qmax l x
  /\ forall y, In y l -> y <= fold_left qmax l x.
Proof.
  induction l as [|z l IH]; intros x; cbn [fold_left].
  - split; [apply Qle_refl | intros y []].
  - destruct (IH (qmax x z)) as [H1 H2]. split.
    + eapply Qle_trans; [apply qmax_ge_l | exact H1].
    + intros y [<-|Hy].
      * eapply Qle_trans; [apply qmax_ge_r | exact H1].
      * apply H2. exact Hy.
Qed.

Lemma fold_qmax_in (l : list Q) : forall x : Q,
  fold_left qmax l x = x \/ In (fold_left qmax l x) l.
Proof.
  induction l as [|y l IH]; intros x; cbn [fold_left].
  - left. reflexivity.
  - destruct (IH (qmax x y)) as [E|E].
    + rewrite E. unfold qmax.
      destruct (Qle_bool x y); [right; left | left]; reflexivity.
    + right. right. exact E.
Qed.

Lemma In_omap_id (a : list (option Q)) (v : Q) :
  In v (omap id a) <-> In (Some v) a.
Proof.
  rewrite <- !list_elem_of_In, list_elem_of_omap. split.
  - intros [x [H E]]. cbn in E. subst x. exact H.
  - intros H. exists (Some v). split; [exact H | reflexivity].
Qed.

(** What [nanmin] and [nanmax] return on an array that is not empty:
    [nan] when it has no finite entry, otherwise one of its entries that
    bounds them all. *)
Lemma nanmin_spec (a : list (option Q)) :
  a <> [] ->
  (nanmin a = Py.Ok None /\ forall v, ~ In (Some v) a)
  \/ exists m, nanmin a = Py.Ok (Some m) /\ In (Some m) a
               /\ forall v, In (Some v) a -> m <= v.
Proof.
  intros Hne. unfold nanmin. destruct a as [|x0 a0]; [congruence|].
  set (a := x0 :: a0) in *.
  destruct (omap id a) as [|x l] eqn:E.
  - left. split; [reflexivity|]. intros v Hv.
    apply In_omap_id in Hv. rewrite E in Hv. exact Hv.
  - right. exists (fold_left Plot.qmin l x). split; [reflexivity|].
    destruct (fold_qmin_le l x) as [H1 H2]. split.
    + apply In_omap_id. rewrite E.
      destruct (fold_qmin_in l x) as [->|I]; [left; reflexivity | right; exact I].
    + intros v Hv. apply In_omap_id in Hv. rewrite E in Hv.
      destruct Hv as [<-|Hv]; [exact H1 | apply H2; exact Hv].
Qed.

Lemma nanmax_spec (a : list (option Q)) :
  a <> [] ->
  (nanmax a = Py.Ok None /\ forall v, ~ In (Some v) a)
  \/ exists m, nanmax a = Py.Ok (Some m) /\ In (Some m) a
               /\ forall v, In (Some v) a -> v <= m.
Proof.
  intros Hne. unfold nanmax. destruct a as [|x0 a0]; [congruence|].
  set (a := x0 :: a0) in *.
  destruct (omap id a) as [|x l] eqn:E.
  - left. split; [reflexivity|]. intros v Hv.
    apply In_omap_id in Hv. rewrite E in Hv. exact Hv.
  - right. exists (fold_left qmax l x). split; [reflexivity|].
    destruct (fold_qmax_ge l x) as [H1 H2]. split.
    + apply In_omap_id. rewrite E.
      destruct (fold_qmax_in l x) as [->|I]; [left; reflexivity | right; exact I].
    + intros v Hv. apply In_omap_id in Hv. rewrite E in Hv.
      destruct Hv as [<-|Hv]; [exact H1 | apply H2; exact Hv].
Qed.

(** One entry, rescaled between bounds of the array. *)
Lemma div_sub_range (v mn mx : Q) :
  mn <= v -> v <= mx ->
  div (sub (Some v) (Some mn)) (sub (Some mx) (Some mn)) = NaN
  \/ exists q, div (sub (Some v) (Some mn)) (sub (Some mx) (Some mn)) = Fin q
               /\ 0 <= q /\ q <= 1.
Proof.
  intros Lo Hi. cbn [sub div].
  destruct (Qeq_bool (mx - mn) 0) eqn:Z0.
  - left. apply Qeq_bool_iff in Z0.
    assert (E : v - mn == 0).
    { apply Qle_antisym.
      - rewrite <- Z0. unfold Qminus. apply Qplus_le_l. exact Hi.
      - unfold Qminus. rewrite <- (Qplus_opp_r mn). apply Qplus_le_l. exact Lo. }
    pose proof (proj1 (Qeq_alt (v - mn) 0) E) as C.
    change (Qcompare (v - mn) 0 = Eq) in C. rewrite C. reflexivity.
  - right. eexists. split; [reflexivity|].
    apply Qeq_bool_neq in Z0.
    assert (D : 0 < mx - mn).
    { apply Qle_lteq in Hi.
      assert (L : mn <= mx) by (eapply Qle_trans; [exact Lo|];
                                destruct Hi as [H|H]; [apply Qlt_le_weak; exact H
                                                     | rewrite H; apply Qle_refl]).
      apply Qle_lteq in L. destruct L as [L|L].
      - unfold Qminus. rewrite <- (Qplus_opp_r mn). apply Qplus_lt_l. exact L.
      - exfalso. apply Z0. rewrite L. ring. }
    split.
    + apply Qle_shift_div_l; [exact D|]. rewrite Qmult_0_l.
      unfold Qminus. rewrite <- (Qplus_opp_r mn). apply Qplus_le_l. exact Lo.
    + apply Qle_shift_div_r; [exact D|]. rewrite Qmult_1_l.
      unfold Qminus. apply Qplus_le_l. exact Hi.
Qed.

(** X12: whatever the overlay, every entry of the rescaled overlay is
    [nan] or a number from 0 to 1; no infinity is produced. *)
Theorem rescaled_overlay_range (overlay : list (option Q)) (r : list float) (x : float) :
  rescaled_overlay overlay = Py.Ok r -> In x r ->
  x = NaN \/ exists q, x = Fin q /\ 0 <= q /\ q <= 1.
Proof.
  unfold rescaled_overlay. intros H Hx.
  assert (Hne : overlay <> []).
  { intros ->. cbn in H. discriminate H. }
  destruct (nanmin_spec overlay Hne) as [[Emin _]|[mn [Emin [_ Lmin]]]];
    rewrite Emin in H; cbn [Py.bind] in H.
  - destruct (nanmax overlay) as [mx|e]; [|discriminate H].
    cbn [Py.bind] in H. injection H as <-.
    apply in_map_iff in Hx. destruct Hx as [v [<- _]].
    left. destruct v; reflexivity.
  - destruct (nanmax_spec overlay Hne) as [[Emax N]|[mx [Emax [_ Lmax]]]];
      rewrite Emax in H; cbn [Py.bind] in H; injection H as <-;
      apply in_map_iff in Hx; destruct Hx as [v [<- Hv]].
    + left. destruct v; reflexivity.
    + destruct v as [v|]; [|left; reflexivity].
      apply div_sub_range; [apply Lmin | apply Lmax]; exact Hv.
Qed.

Lemma rescaled_overlay_range_witness :
  exists r, rescaled_overlay [Some 3; None; Some 7; Some 4] = Py.Ok r
            /\ In (Fin ((4 - 3) / (7 - 3))) r
            /\ 0 <= (4 - 3) / (7 - 3) /\ (4 - 3) / (7 - 3) <= 1.
Proof.
  eexists. split; [reflexivity|].
  assert (I : In (Fin ((4 - 3) / (7 - 3)))
                 (map (fun x => div (sub x (Some 3)) (sub (Some 7) (Some 3)))
                      [Some 3; None; Some 7; Some 4])).
  { right. right. right. left. reflexivity. }
  split; [exact I|].
  destruct (rescaled_overlay_range [Some 3; None; Some 7; Some 4] _ _ eq_refl I)
    as [N|[q [E B]]].
  - discriminate N.
  - injection E as <-. exact B.
Defined.

(** X13: an overlay that takes one value only, on the pixels where it has
    one, cannot be rescaled: every entry of the result is [nan]. *)
Theorem rescaled_overlay_constant (overlay : list (option Q)) (c : Q) :
  overlay <> [] ->
  (forall v, In (Some v) overlay -> v == c) ->
  exists r, rescaled_overlay overlay = Py.Ok r
            /\ List.length r = List.length overlay
            /\ forall x, In x r -> x = NaN.
Proof.
  intros Hne Hc. unfold rescaled_overlay.
  destruct (nanmin_spec overlay Hne) as [[Emin _]|[mn [Emin [Imin _]]]];
    rewrite Emin; cbn [Py.bind].
  - destruct (nanmax_spec overlay Hne) as [[Emax _]|[mx [Emax _]]];
      rewrite Emax; cbn [Py.bind]; eexists; (split; [reflexivity|]);
      (split; [apply length_map|]);
      intros x Hx; apply in_map_iff in Hx; destruct Hx as [v [<- _]];
      destruct v; reflexivity.
  - destruct (nanmax_spec overlay Hne) as [[Emax N]|[mx [Emax [Imax _]]]];
      rewrite Emax; cbn [Py.bind]; eexists; (split; [reflexivity|]);
      (split; [apply length_map|]);
      intros x Hx; apply in_map_iff in Hx; destruct Hx as [v [<- Hv]].
    + destruct v; reflexivity.
    + destruct v as [v|]; [|reflexivity]. cbn [sub div].
      assert (Z0 : Qeq_bool (mx - mn) 0 = true).
      { apply Qeq_bool_iff. rewrite (Hc mx Imax), (Hc mn Imin). ring. }
      rewrite Z0.
      assert (E : v - mn == 0) by (rewrite (Hc v Hv), (Hc mn Imin); ring).
      pose proof (proj1 (Qeq_alt (v - mn) 0) E) as C.
      change (Qcompare (v - mn) 0 = Eq) in C. rewrite C. reflexivity.
Qed.

Lemma rescaled_overlay_constant_witness :
  rescaled_overlay [Some 5; None; Some 5] = Py.Ok [NaN; NaN; NaN].
Proof.
  destruct (rescaled_overlay_constant [Some 5; None; Some 5] 5)
    as [r [E _]].
  - discriminate.
  - intros v [H|[H|[H|[]]]]; try discriminate H; injection H as <-; reflexivity.
  - reflexivity.
Defined.



End RescaledOverlay.

(** * [_override_status_bar]: the data under the pointer *)

Section StatusBarData.

Import StatusBar.

Local Open Scope Q_scope.

(** From half a pixel before the first one on, [int(x + 0.5)] is the
    nearest index, the next one on a tie. *)
Lemma cursor_index_nearest (x : Q) :
  - (1 # 2) <= x ->
  (0 <= cursor_index x)%Z
  /\ inject_Z (cursor_index x) - (1 # 2) <= x
  /\ x < inject_Z (cursor_index x) + (1 # 2).
Proof.
  intros H. unfold cursor_index, Plot.to_int.
  assert (P : 0 <= x + (1 # 2)).
  { rewrite <- (Qplus_opp_r (1 # 2)), (Qplus_comm (1 # 2)).
    apply Qplus_le_l. exact H. }
  rewrite (proj2 (Qle_bool_iff 0 (x + (1 # 2))) P).
  pose proof (Qfloor_le (x + (1 # 2))) as Lo.
  pose proof (Qlt_floor (x + (1 # 2))) as Hi.
  rewrite inject_Z_plus in Hi.
  split; [|split].
  - change 0%Z with (Qfloor 0). apply Qfloor_resp_le. exact P.
  - apply (Qplus_le_l _ _ (1 # 2)).
    eapply Qle_trans; [|exact Lo]. apply Qle_lteq. right. ring.
  - apply (Qplus_lt_l _ _ (1 # 2)).
    eapply Qlt_le_trans; [exact Hi|]. apply Qle_lteq. right. ring.
Qed.

Lemma cursor_index_below (x : Q) (n : nat) :
  - (1 # 2) <= x -> x < inject_Z (Z.of_nat n) - (1 # 2) ->
  (0 <= cursor_index x < Z.of_nat n)%Z.
Proof.
  intros Lo Hi. destruct (cursor_index_nearest x Lo) as [P [L _]].
  split; [exact P|].
  apply Z.lt_nge. intros C. rewrite Zle_Qle in C.
  apply (Qlt_irrefl x). eapply Qlt_le_trans; [exact Hi|].
  eapply Qle_trans; [|exact L]. apply Qplus_le_l. exact C.
Qed.

(** An entry of a rectangular array. *)
Lemma index2_inside {A} (a : list (list A)) (n_rows n_cols : nat) (row col : Z) :
  List.length a = n_rows ->
  Forall (fun line => List.length line = n_cols) a ->
  (0 <= row < Z.of_nat n_rows)%Z -> (0 <= col < Z.of_nat n_cols)%Z ->
  exists line v, index2 a row col = Py.Ok v
                 /\ nth_error a (Z.to_nat row) = Some line
                 /\ nth_error line (Z.to_nat col) = Some v.
Proof.
  intros Hr Hc Rr Rc. unfold index2.
  destruct (index_in_range a row) as [line [I Lin]]; [rewrite Hr; exact Rr|].
  rewrite Forall_forall in Hc. specialize (Hc line Lin).
  destruct (index_in_range line col) as [v [J _]]; [rewrite Hc; exact Rc|].
  rewrite I. cbn [Py.bind]. rewrite J.
  exists line, v. split; [reflexivity|].
  split; apply index_nth_error; try assumption; lia.
Qed.

(** The same, with the upper bound kept away from the last half pixel. *)
Lemma cursor_index_inside (x : Q) (n : nat) :
  - (1 # 2) <= x -> x + (1 # 2) < inject_Z (Z.of_nat n) * (1 - tol) ->
  (0 <= cursor_index x < Z.of_nat n)%Z
  /\ inject_Z (cursor_index x) * (1 - tol) <= x + (1 # 2)
  /\ x + (1 # 2) < (inject_Z (cursor_index x) + 1) * (1 + tol).
Proof.
  intros Lo Hi.
  assert (Hn : 0 <= inject_Z (Z.of_nat n)).
  { change 0 with (inject_Z 0). rewrite <- Zle_Qle. lia. }
  assert (Hi' : x < inject_Z (Z.of_nat n) - (1 # 2)).
  { apply (Qplus_lt_l _ _ (1 # 2)).
    eapply Qlt_le_trans; [exact Hi|].
    setoid_replace (inject_Z (Z.of_nat n) - (1 # 2) + (1 # 2))
      with (inject_Z (Z.of_nat n) * 1) using relation Qeq by ring.
    destruct (proj1 (Qle_lteq _ _) Hn) as [P|E].
    - apply Qmult_le_l; [exact P | discriminate].
    - rewrite <- E. rewrite !Qmult_0_l. apply Qle_refl. }
  destruct (cursor_index_nearest x Lo) as [P [L U]].
  split; [exact (cursor_index_below x n Lo Hi')|].
  assert (Hc : 0 <= inject_Z (cursor_index x)).
  { change 0 with (inject_Z 0). rewrite <- Zle_Qle. exact P. }
  split.
  - apply Qle_trans with (inject_Z (cursor_index x)).
    + rewrite <- (Qmult_1_r (inject_Z (cursor_index x))) at 2.
      destruct (proj1 (Qle_lteq _ _) Hc) as [Q0|E].
      * apply Qmult_le_l; [exact Q0 | discriminate].
      * rewrite <- E. rewrite !Qmult_0_l. apply Qle_refl.
    + apply (Qplus_le_l _ _ (- (1 # 2))).
      setoid_replace (x + (1 # 2) + - (1 # 2)) with x using relation Qeq by ring.
      exact L.
  - apply Qlt_le_trans with (inject_Z (cursor_index x) + 1).
    + apply (Qplus_lt_l _ _ (- (1 # 2))).
      setoid_replace (x + (1 # 2) + - (1 # 2)) with x using relation Qeq by ring.
      setoid_replace (inject_Z (cursor_index x) + 1 + - (1 # 2))
        with (inject_Z (cursor_index x) + (1 # 2)) using relation Qeq by ring.
      exact U.
    + rewrite <- (Qmult_1_r (inject_Z (cursor_index x) + 1)) at 1.
      apply Qmult_le_l; [|discriminate].
      apply Qlt_le_trans with (0 + 1); [reflexivity|].
      apply Qplus_le_l. exact Hc.
Qed.

(** X15: for a pointer over the image, from half a pixel before the first
    row and column to half a pixel after the last ones, kept at a relative
    distance of at least [tol] from that end, nothing is raised, and the
    status bar data are those of the pixel whose index is, up to [tol], the
    integer part of the pointer's position plus one half. *)
Theorem status_bar_data_inside {A B} (r : list (list A)) (image_data : list (list B))
    (n_rows n_cols : nat) (xdata ydata : Q) :
  List.length r = n_rows ->
  Forall (fun line => List.length line = n_cols) r ->
  List.length image_data = n_rows ->
  Forall (fun line => List.length line = n_cols) image_data ->
  - (1 # 2) <= xdata ->
  xdata + (1 # 2) < inject_Z (Z.of_nat n_cols) * (1 - tol) ->
  - (1 # 2) <= ydata ->
  ydata + (1 # 2) < inject_Z (Z.of_nat n_rows) * (1 - tol) ->
  exists (row col : Z) (rotation : A) (value : B),
    status_bar_data r image_data xdata ydata = Py.Ok (row, col, rotation, value)
    /\ (0 <= row < Z.of_nat n_rows)%Z /\ (0 <= col < Z.of_nat n_cols)%Z
    /\ (inject_Z col * (1 - tol) <= xdata + (1 # 2)
        /\ xdata + (1 # 2) < (inject_Z col + 1) * (1 + tol))
    /\ (inject_Z row * (1 - tol) <= ydata + (1 # 2)
        /\ ydata + (1 # 2) < (inject_Z row + 1) * (1 + tol))
    /\ (exists line, nth_error r (Z.to_nat row) = Some line
                     /\ nth_error line (Z.to_nat col) = Some rotation)
    /\ (exists line, nth_error image_data (Z.to_nat row) = Some line
                     /\ nth_error line (Z.to_nat col) = Some value).
Proof.
  intros Hr Hrc Hi Hic Xlo Xhi Ylo Yhi.
  destruct (cursor_index_inside xdata n_cols Xlo Xhi) as [Rc Nx].
  destruct (cursor_index_inside ydata n_rows Ylo Yhi) as [Rr Ny].
  destruct (index2_inside r n_rows n_cols _ _ Hr Hrc Rr Rc) as [l1 [rot [I1 [L1 V1]]]].
  destruct (index2_inside image_data n_rows n_cols _ _ Hi Hic Rr Rc)
    as [l2 [val [I2 [L2 V2]]]].
  exists (cursor_index ydata), (cursor_index xdata), rot, val.
  unfold status_bar_data. cbv zeta. rewrite I1, I2.
  split; [reflexivity|]. split; [exact Rr|]. split; [exact Rc|].
  split; [exact Nx|]. split; [exact Ny|].
  split; [exists l1 | exists l2]; split; assumption.
Qed.

(** A pointer at (1.6, 0.4) on a map of two rows and three columns. *)
Lemma status_bar_data_inside_witness :
  status_bar_data [["a"; "b"; "c"]; ["d"; "e"; "f"]]
                  [[1; 2; 3]; [4; 5; 6]]%Z (16 # 10) (4 # 10)
  = Py.Ok (0, 2, "c", 3)%Z.
Proof.
  destruct (status_bar_data_inside [["a"; "b"; "c"]; ["d"; "e"; "f"]]
              [[1; 2; 3]; [4; 5; 6]]%Z 2 3 (16 # 10) (4 # 10))
    as [row [col [rot [val [S _]]]]].
  - reflexivity.
  - repeat constructor.
  - reflexivity.
  - repeat constructor.
  - discriminate.
  - reflexivity.
  - discriminate.
  - reflexivity.
  - reflexivity.
Defined.

(** X16: [int] rounds towards zero, so a pointer up to one pixel and a
    half before the first column is still attributed to column 0. *)
Theorem cursor_index_before_first (x : Q) :
  - (3 # 2) < x -> x < - (1 # 2) -> cursor_index x = 0%Z.
Proof.
  intros Lo Hi. unfold cursor_index, Plot.to_int.
  assert (N : x + (1 # 2) < 0).
  { rewrite <- (Qplus_opp_r (1 # 2)), (Qplus_comm (1 # 2) (- (1 # 2))).
    apply Qplus_lt_l. exact Hi. }
  assert (M : - (1) < x + (1 # 2)).
  { setoid_replace (- (1)) with (- (3 # 2) + (1 # 2)) using relation Qeq by ring.
    apply Qplus_lt_l. exact Lo. }
  destruct (Qle_bool 0 (x + (1 # 2))) eqn:E.
  - apply Qle_bool_iff in E. exfalso.
    exact (Qlt_irrefl _ (Qle_lt_trans _ _ _ E N)).
  - pose proof (Qle_ceiling (x + (1 # 2))) as C1.
    pose proof (Qceiling_lt (x + (1 # 2))) as C2.
    assert (U : (Qceiling (x + (1 # 2)) <= 0)%Z).
    { change 0%Z with (Qceiling 0). apply Qceiling_resp_le.
      apply Qlt_le_weak. exact N. }
    assert (L : (-1 < Qceiling (x + (1 # 2)))%Z).
    { rewrite Zlt_Qlt. eapply Qlt_le_trans; [exact M | exact C1]. }
    lia.
Qed.

Lemma cursor_index_before_first_witness : cursor_index (- (12 # 10)) = 0%Z.
Proof.
  apply (cursor_index_before_first (- (12 # 10))); reflexivity.
Defined.

End StatusBarData.
